(** * jobhunt: the fetch / normalise / dedupe / filter / rank pipeline

    A shallow embedding of [agents/job_fetcher.py], [agents/job_filter.py]
    and [agents/job_ranker.py], and the properties of the pipeline that the
    design document states about them.

    Listings and user profiles are Python dictionaries with string keys;
    they are modelled as [gmap string value] over a small universe of Python
    values.  Code that can raise is modelled in an error monad; code that
    writes to a listing is modelled over a store of dictionary objects
    addressed by location, so that the caller's view of a listing after a
    call is part of the model. *)

From Stdlib Require Import QArith Lqa Ascii String.
From stdpp Require Import gmap strings list sorting.

#[local] Set Warnings "-register-all".

Local Open Scope Z_scope.
Local Open Scope string_scope.
Local Open Scope list_scope.

(** ** Python values and the operators the agents apply to them *)

Module Py.

(** The values a listing, a profile or a raw record can hold.  Numbers
    ([int] and finite [float]) are rationals: Python compares and tests
    them by value, and every number the agents compute is a small multiple
    of one half, which binary floating point adds without rounding.
    [VDate] is a [datetime], as seconds on the clock's own scale. *)
Inductive value :=
  | VNone
  | VBool (b : bool)
  | VNum (q : Q)
  | VStr (s : string)
  | VList (l : list value)
  | VDate (t : Z).

Abbreviation dict := (gmap string value).

Inductive exn :=
  | TypeError
  | AttributeError
  | KeyError
  | ValueError
  | JobFetcherError
  | Dangling.

Inductive result (A : Type) :=
  | Ok (a : A)
  | Raise (e : exn).
Arguments Ok {A} a.
Arguments Raise {A} e.

#[global] Instance result_ret : MRet result := fun A a => Ok a.
#[global] Instance result_bind : MBind result := fun A B f m =>
  match m with
  | Ok a => f a
  | Raise e => Raise e
  end.

(** [d.get(k, default)] *)
Definition get (d : dict) (k : string) (default : value) : value :=
  match d !! k with
  | Some v => v
  | None => default
  end.

(** [bool(v)]: the truth value Python's [if], [and], [or], [not] use. *)
Definition truthy (v : value) : bool :=
  match v with
  | VNone => false
  | VBool b => b
  | VNum q => negb (Qeq_bool q 0)
  | VStr s => negb (String.eqb s "")
  | VList l => match l with [] => false | _ => true end
  | VDate _ => true
  end.

(** ASCII case folding, [str.lower] on the strings of the model. *)
Definition lower_ascii (c : ascii) : ascii :=
  let n := nat_of_ascii c in
  if ((65 <=? n) && (n <=? 90))%nat then ascii_of_nat (n + 32) else c.

Fixpoint lower (s : string) : string :=
  match s with
  | EmptyString => EmptyString
  | String c s' => String (lower_ascii c) (lower s')
  end.

(** [v.lower()]: only [str] has the method. *)
Definition py_lower (v : value) : result string :=
  match v with
  | VStr s => Ok (lower s)
  | _ => Raise AttributeError
  end.

(** [sub in s] on two strings. *)
Fixpoint is_substring (sub s : string) : bool :=
  String.prefix sub s ||
  match s with
  | EmptyString => false
  | String _ s' => is_substring sub s'
  end.

(** [for x in v]: a list yields its elements, a string its characters. *)
Fixpoint chars (s : string) : list value :=
  match s with
  | EmptyString => []
  | String c s' => VStr (String c EmptyString) :: chars s'
  end.

Definition py_iter (v : value) : result (list value) :=
  match v with
  | VList l => Ok l
  | VStr s => Ok (chars s)
  | _ => Raise TypeError
  end.

(** [a == b] *)
Definition num_of (v : value) : option Q :=
  match v with
  | VBool b => Some (if b then 1%Q else 0%Q)
  | VNum q => Some q
  | _ => None
  end.

Fixpoint py_eqb (a b : value) : bool :=
  match a, b with
  | VNone, VNone => true
  | VStr s, VStr t => String.eqb s t
  | VDate s, VDate t => Z.eqb s t
  | VList la, VList lb =>
      (fix go (la lb : list value) : bool :=
         match la, lb with
         | [], [] => true
         | x :: la', y :: lb' => py_eqb x y && go la' lb'
         | _, _ => false
         end) la lb
  | (VBool _ | VNum _), (VBool _ | VNum _) =>
      match num_of a, num_of b with
      | Some p, Some q => Qeq_bool p q
      | _, _ => false
      end
  | _, _ => false
  end.

(** The four ordering operators. *)
Inductive cmpop := OpLt | OpLe | OpGt | OpGe.

Definition cmp_holds (op : cmpop) (c : comparison) : bool :=
  match op, c with
  | OpLt, Lt => true
  | OpLe, (Lt | Eq) => true
  | OpGt, Gt => true
  | OpGe, (Gt | Eq) => true
  | _, _ => false
  end.

(** [a op b]: numbers (and booleans) by value, strings and lists
    lexicographically, datetimes by time; anything else is a [TypeError]. *)
Fixpoint py_cmp (op : cmpop) (a b : value) : result bool :=
  match a, b with
  | (VBool _ | VNum _), (VBool _ | VNum _) =>
      match num_of a, num_of b with
      | Some p, Some q => Ok (cmp_holds op (Qcompare p q))
      | _, _ => Raise TypeError
      end
  | VStr s, VStr t => Ok (cmp_holds op (String.compare s t))
  | VDate s, VDate t => Ok (cmp_holds op (Z.compare s t))
  | VList la, VList lb =>
      (fix go (la lb : list value) : result bool :=
         match la, lb with
         | [], [] => Ok (cmp_holds op Eq)
         | [], _ :: _ => Ok (cmp_holds op Lt)
         | _ :: _, [] => Ok (cmp_holds op Gt)
         | x :: la', y :: lb' =>
             if py_eqb x y then go la' lb' else py_cmp op x y
         end) la lb
  | _, _ => Raise TypeError
  end.

(** *** The object store

    A listing handed to an agent is a reference to a dictionary object; the
    caller and the agent see the same object.  [heap] maps locations to the
    current contents of the objects, and [st] threads it through code that
    may raise; what was written before an exception stays written.
    [Dangling] is the model's answer to a location that holds no
    object; Python has no such reference. *)
Abbreviation loc := nat.
Abbreviation heap := (gmap loc dict).

Definition st (A : Type) : Type := heap -> result A * heap.

#[global] Instance st_ret : MRet st := fun A a h => (Ok a, h).
#[global] Instance st_bind : MBind st := fun A B f m h =>
  match m h with
  | (Ok a, h') => f a h'
  | (Raise e, h') => (Raise e, h')
  end.

Definition lift {A} (r : result A) : st A := fun h => (r, h).

Definition deref (l : loc) : st dict := fun h =>
  match h !! l with
  | Some d => (Ok d, h)
  | None => (Raise Dangling, h)
  end.

(** [job[k] = v] on the object at [l] *)
Definition setitem (l : loc) (k : string) (v : value) : st unit := fun h =>
  match h !! l with
  | Some d => (Ok tt, <[l := <[k := v]> d]> h)
  | None => (Raise Dangling, h)
  end.

End Py.

Import Py.

(** ** agents/job_filter.py *)

Module JobFilter.

(** The [FilterCriteria] dataclass, with the types of its annotations; a
    field left at [None] is [None] here. *)
Record FilterCriteria := {
  required_skills : option (list string);
  preferred_skills : option (list string);
  locations : option (list string);
  remote_only : bool;
  min_salary : option Q;
  max_salary : option Q;
  experience_min : option Z;
  experience_max : option Z;
  job_types : option (list string);
  company_blacklist : option (list string);
  company_whitelist : option (list string);
  posted_within_days : option Z;
  keywords : option (list string);
  exclude_keywords : option (list string)
}.

(** [FilterCriteria()] *)
Definition no_criteria : FilterCriteria := {|
  required_skills := None; preferred_skills := None; locations := None;
  remote_only := false; min_salary := None; max_salary := None;
  experience_min := None; experience_max := None; job_types := None;
  company_blacklist := None; company_whitelist := None;
  posted_within_days := None; keywords := None; exclude_keywords := None
|}.

(** The entries of a list-valued criterion when it is truthy: [None] and
    the empty list both switch the criterion off. *)
Definition entries (o : option (list string)) : option (list string) :=
  match o with
  | Some (x :: l) => Some (x :: l)
  | _ => None
  end.

(** A numeric criterion when it is truthy: [None] and [0] switch it off. *)
Definition bound (o : option Q) : option Q :=
  match o with
  | Some q => if Qeq_bool q 0 then None else Some q
  | None => None
  end.

Definition zbound (o : option Z) : option Z :=
  match o with
  | Some z => if Z.eqb z 0 then None else Some z
  | None => None
  end.

Section Filter.

(** [datetime.fromisoformat] ([None] for [ValueError]) and the reading of
    [datetime.now()] while the [i]-th listing of a call is examined. *)
Variable fromisoformat : string -> option Z.
Variable clock : nat -> Z.

Variable criteria : FilterCriteria.

Definition _check_required_skills (job : dict) : result bool :=
  match entries (required_skills criteria) with
  | None => Ok true
  | Some required =>
      let job_skills :=
        let v := get job "skills" (VList []) in
        if truthy v then v else VList [] in
      job_description ← py_lower (get job "description" (VStr ""));
      (fix each (required : list string) : result bool :=
         match required with
         | [] => Ok true
         | required_skill :: rest =>
             let skill_lower := lower required_skill in
             items ← py_iter job_skills;
             lowered ← mapM py_lower items;
             if negb (bool_decide (skill_lower ∈ lowered))
                && negb (is_substring skill_lower job_description)
             then Ok false
             else each rest
         end) required
  end.

Definition _check_location (job : dict) : result bool :=
  if remote_only criteria then
    if truthy (get job "is_remote" (VBool false)) then Ok true
    else
      job_location ← py_lower (get job "location" (VStr ""));
      Ok (is_substring "remote" job_location)
  else
    match entries (locations criteria) with
    | None => Ok true
    | Some locs =>
        job_location ← py_lower (get job "location" (VStr ""));
        Ok (existsb (fun location => is_substring (lower location) job_location)
              locs)
    end.

(** The shape shared by the salary and the experience check: a field that
    is [None] or missing passes; a bound that is set and not zero is
    compared with the field. *)
Definition in_range (field : value) (lo hi : option Q) : result bool :=
  match field with
  | VNone => Ok true
  | _ =>
      below ← match lo with
               | Some m => py_cmp OpLt field (VNum m)
               | None => Ok false
               end;
      if below : bool then Ok false
      else
        above ← match hi with
                 | Some m => py_cmp OpGt field (VNum m)
                 | None => Ok false
                 end;
        if above : bool then Ok false else Ok true
  end.

Definition _check_salary (job : dict) : result bool :=
  let job_salary := get job "salary" VNone in
  in_range job_salary (bound (min_salary criteria)) (bound (max_salary criteria)).

Definition _check_experience (job : dict) : result bool :=
  let job_experience := get job "experience_years" VNone in
  in_range job_experience
    (inject_Z <$> zbound (experience_min criteria))
    (inject_Z <$> zbound (experience_max criteria)).

Definition _check_job_type (job : dict) : result bool :=
  match entries (job_types criteria) with
  | None => Ok true
  | Some types =>
      job_type ← py_lower (get job "job_type" (VStr ""));
      Ok (existsb (fun jt => is_substring (lower jt) job_type) types)
  end.

Definition _check_company (job : dict) : result bool :=
  company ← py_lower (get job "company" (VStr ""));
  let blocked :=
    match entries (company_blacklist criteria) with
    | Some l => existsb (fun b => is_substring (lower b) company) l
    | None => false
    end in
  if blocked then Ok false
  else
    match entries (company_whitelist criteria) with
    | Some l => Ok (existsb (fun a => is_substring (lower a) company) l)
    | None => Ok true
    end.

Definition _check_posting_date (now : Z) (job : dict) : result bool :=
  match zbound (posted_within_days criteria) with
  | None => Ok true
  | Some days =>
      let posted_date := get job "posted_date" VNone in
      if negb (truthy posted_date) then Ok true
      else
        let cutoff_date := VDate (now - 86400 * days) in
        match posted_date with
        | VStr s =>
            match fromisoformat s with
            | Some t => py_cmp OpGe (VDate t) cutoff_date
            | None => Ok true
            end
        | _ => py_cmp OpGe posted_date cutoff_date
        end
  end.

Definition _check_keywords (job : dict) : result bool :=
  description ← py_lower (get job "description" (VStr ""));
  title ← py_lower (get job "title" (VStr ""));
  let combined_text := title +:+ " " +:+ description in
  let required_ok :=
    match entries (keywords criteria) with
    | Some l => existsb (fun k => is_substring (lower k) combined_text) l
    | None => true
    end in
  if negb required_ok then Ok false
  else
    match entries (exclude_keywords criteria) with
    | Some l =>
        Ok (negb (existsb (fun k => is_substring (lower k) combined_text) l))
    | None => Ok true
    end.

(** The checks in the order the code makes them; the first that fails or
    raises ends the evaluation. *)
Fixpoint all_pass (checks : list (dict -> result bool)) (job : dict)
  : result bool :=
  match checks with
  | [] => Ok true
  | check :: rest =>
      ok ← check job;
      if ok : bool then all_pass rest job else Ok false
  end.

Definition _meets_criteria (now : Z) (job : dict) : result bool :=
  all_pass
    [ _check_required_skills; _check_location; _check_salary;
      _check_experience; _check_job_type; _check_company;
      _check_posting_date now; _check_keywords ] job.

(** The agent's own counters. *)
Record counters := { total_processed : nat; filtered_count : nat }.

Fixpoint filter_from (i : nat) (jobs : list loc) : st (list loc) :=
  match jobs with
  | [] => mret []
  | job :: rest =>
      d ← deref job;
      keep ← lift (_meets_criteria (clock i) d);
      kept ← filter_from (S i) rest;
      mret (if keep : bool then job :: kept else kept)
  end.

Definition filter_jobs (jobs : list loc) : st (list loc * counters) :=
  filtered_jobs ← filter_from 0 jobs;
  mret (filtered_jobs,
        {| total_processed := length jobs;
           filtered_count := length filtered_jobs |}).

End Filter.

(** [create_default_criteria] with its keyword arguments: an argument
    that is given replaces the default of its field. *)
Record kwargs := {
  kw_required_skills : option (option (list string));
  kw_preferred_skills : option (option (list string));
  kw_locations : option (option (list string));
  kw_remote_only : option bool;
  kw_min_salary : option (option Q);
  kw_max_salary : option (option Q);
  kw_experience_min : option (option Z);
  kw_experience_max : option (option Z);
  kw_job_types : option (option (list string));
  kw_company_blacklist : option (option (list string));
  kw_company_whitelist : option (option (list string));
  kw_posted_within_days : option (option Z);
  kw_keywords : option (option (list string));
  kw_exclude_keywords : option (option (list string))
}.

Definition no_kwargs : kwargs := {|
  kw_required_skills := None; kw_preferred_skills := None;
  kw_locations := None; kw_remote_only := None; kw_min_salary := None;
  kw_max_salary := None; kw_experience_min := None;
  kw_experience_max := None; kw_job_types := None;
  kw_company_blacklist := None; kw_company_whitelist := None;
  kw_posted_within_days := None; kw_keywords := None;
  kw_exclude_keywords := None
|}.

Definition create_default_criteria (kw : kwargs) : FilterCriteria := {|
  required_skills := default (Some []) (kw_required_skills kw);
  preferred_skills := default (Some []) (kw_preferred_skills kw);
  locations := default (Some []) (kw_locations kw);
  remote_only := default false (kw_remote_only kw);
  min_salary := default None (kw_min_salary kw);
  max_salary := default None (kw_max_salary kw);
  experience_min := default None (kw_experience_min kw);
  experience_max := default None (kw_experience_max kw);
  job_types := default (Some ["full-time"]) (kw_job_types kw);
  company_blacklist := default None (kw_company_blacklist kw);
  company_whitelist := default None (kw_company_whitelist kw);
  posted_within_days := default (Some 30) (kw_posted_within_days kw);
  keywords := default None (kw_keywords kw);
  exclude_keywords := default None (kw_exclude_keywords kw)
|}.

(** [apply_llm_filter]: not implemented, the list comes back as it is. *)
Definition apply_llm_filter (jobs : list loc) (user_profile : dict)
  : list loc := jobs.

End JobFilter.

(** ** agents/job_ranker.py *)

Module JobRanker.

Section Ranker.

(** [self.user_profile] *)
Variable user_profile : dict.

(** [[s.lower() for s in v]] *)
Definition lowered (v : value) : result (list string) :=
  items ← py_iter v;
  mapM py_lower items.

Definition _compute_score (job : dict) : result Q :=
  let score := 0%Q in
  (* Skill matching *)
  job_skills ← lowered (get job "skills" (VList []));
  user_skills ← lowered (get user_profile "skills" (VList []));
  let job_skills : gset string := list_to_set job_skills in
  let user_skills : gset string := list_to_set user_skills in
  let skill_matches := size (job_skills ∩ user_skills) in
  let score := (score + inject_Z (Z.of_nat skill_matches) * 5)%Q in
  (* Preferred location *)
  preferred_locations ← lowered (get user_profile "locations" (VList []));
  job_location ← py_lower (get job "location" (VStr ""));
  let score :=
    if existsb (fun loc => is_substring loc job_location) preferred_locations
    then (score + 10)%Q else score in
  (* Salary boost *)
  let min_salary := get user_profile "min_salary" VNone in
  let job_salary := get job "salary" VNone in
  salary_ok ←
    (if truthy min_salary && truthy job_salary
     then py_cmp OpGe job_salary min_salary else Ok false);
  let score := if salary_ok : bool then (score + (15 # 2))%Q else score in
  (* Remote preference *)
  let remote_pref := get user_profile "remote_only" (VBool false) in
  let score :=
    if truthy remote_pref
       && (truthy (get job "is_remote" (VBool false))
           || is_substring "remote" job_location)
    then (score + 8)%Q else score in
  (* Experience match *)
  let exp_years := get user_profile "experience_years" VNone in
  let job_exp := get job "experience_years" VNone in
  exp_ok ←
    (if truthy job_exp && truthy exp_years
     then py_cmp OpLe job_exp exp_years else Ok false);
  let score := if exp_ok : bool then (score + 3)%Q else score in
  Ok score.

(** The loop [for job in jobs: job['rank_score'] = self._compute_score(job)] *)
Fixpoint score_all (jobs : list loc) : st unit :=
  match jobs with
  | [] => mret tt
  | job :: rest =>
      d ← deref job;
      score ← lift (_compute_score d);
      _ ← setitem job "rank_score" (VNum score);
      score_all rest
  end.

(** The sort key [lambda j: j['rank_score']].  [rank_jobs] has stored a
    float under that key in every listing before it sorts; a key that is
    not a number is not ordered by this model. *)
Definition rank_key (job : loc) : st Q :=
  d ← deref job;
  match d !! "rank_score" with
  | Some v =>
      match num_of v with
      | Some q => mret q
      | None => lift (Raise TypeError)
      end
  | None => lift (Raise KeyError)
  end.

Fixpoint keyed (jobs : list loc) : st (list (Q * loc)) :=
  match jobs with
  | [] => mret []
  | job :: rest =>
      k ← rank_key job;
      ks ← keyed rest;
      mret ((k, job) :: ks)
  end.

(** [sorted(..., reverse=True)] on the keyed listings: Python's sort is
    stable, also with [reverse]; an element goes in front of the first
    element whose key is not greater than its own. *)
Fixpoint insert_desc (x : Q * loc) (l : list (Q * loc)) : list (Q * loc) :=
  match l with
  | [] => [x]
  | y :: l' =>
      if Qle_bool (fst y) (fst x) then x :: y :: l'
      else y :: insert_desc x l'
  end.

Definition sorted_desc (l : list (Q * loc)) : list (Q * loc) :=
  foldr insert_desc [] l.

Definition rank_jobs (jobs : list loc) : st (list loc) :=
  _ ← score_all jobs;
  ks ← keyed jobs;
  let ranked_jobs := snd <$> sorted_desc ks in
  mret ranked_jobs.

(** [self.rank_jobs(jobs)[:n]] *)
Definition top_n (jobs : list loc) (n : nat) : st (list loc) :=
  ranked ← rank_jobs jobs;
  mret (take n ranked).

End Ranker.

End JobRanker.

(** ** agents/job_fetcher.py *)

Module JobFetcher.

(** What [await response.json()] can hold, as far as the fetcher looks into
    it: a list of raw records, an object, or anything else that has no
    [get] and cannot be iterated and parsed (a number, [None], a text, a
    list with an element that is not a record). *)
Inductive json :=
  | JRecords (l : list dict)
  | JObject (m : list (string * json))
  | JOther.

(** What one [session.get] does: a response with its status and decoded
    body, an [aiohttp.ClientError] (from the request or from decoding), or
    another exception (a timeout, an undecodable body). *)
Inductive outcome :=
  | Response (status : Z) (data : json)
  | ClientError
  | OtherError.

(** What a task does to the outside world, in order. *)
Inductive event :=
  | Get (url keywords location : string)
  | Sleep (seconds : nat).

(** [self.session]: [None], an open [ClientSession], or one that
    [__aexit__] has closed (the attribute keeps the closed object). *)
Inductive session_state := NoSession | Open | Closed.

Record fetcher := {
  sources : list string;
  jobs : list dict;
  session : session_state
}.

(** [JobFetcher()] *)
Definition default_sources : list string := ["linkedin"; "indeed"; "glassdoor"].

Definition new (srcs : option (list string)) : fetcher :=
  {| sources := match srcs with
                | Some (s :: l) => s :: l
                | _ => default_sources
                end;
     jobs := [];
     session := NoSession |}.

(** [data.get(k, default)] on a decoded body *)
Fixpoint assoc (k : string) (m : list (string * json)) : option json :=
  match m with
  | [] => None
  | (k', v) :: m' => if String.eqb k k' then Some v else assoc k m'
  end.

Definition json_get (data : json) (k : string) (dflt : json) : result json :=
  match data with
  | JObject m => Ok (default dflt (assoc k m))
  | _ => Raise AttributeError
  end.

Definition _extract_jobs_from_response (data : json) (source : string)
  : result json :=
  if String.eqb source "linkedin" then json_get data "elements" (JRecords [])
  else if String.eqb source "indeed" then json_get data "results" (JRecords [])
  else if String.eqb source "glassdoor" then
    response ← json_get data "response" (JObject []);
    json_get response "jobListings" (JRecords [])
  else Ok (JRecords []).

Section Fetch.

(** The world: the outcome of the [attempt]-th request of a task to a URL
    with given keywords and location.  The tasks of one run share nothing
    but the open session, so what a task does is a function of the
    outcomes of its own requests, whatever the interleaving. *)
Variable net : string -> string -> string -> nat -> outcome.

(** [datetime.utcnow().isoformat()] when record [i] from a source is parsed *)
Variable utcnow : string -> nat -> string.

Definition max_retries : nat := 3.
Definition retry_delay : nat := 1.

(** The body of the retry loop from attempt [attempt] on, with [fuel] the
    attempts left in [range(max_retries)]: the events of the task and the
    value returned. *)
Fixpoint attempts (self : fetcher) (url keywords location source : string)
    (attempt fuel : nat) : list event * json :=
  match fuel with
  | O => ([], JRecords [])
  | S fuel' =>
      match session self with
      | NoSession | Closed => ([], JRecords [])
      | Open =>
          let request := Get url keywords location in
          match net url keywords location attempt with
          | Response status data =>
              if Z.eqb status 200 then
                match _extract_jobs_from_response data source with
                | Ok found => ([request], found)
                | Raise _ => ([request], JRecords [])
                end
              else if Z.eqb status 429 then
                let '(events, found) :=
                  attempts self url keywords location source (S attempt) fuel' in
                (request :: Sleep (retry_delay * (attempt + 1)) :: events, found)
              else ([request], JRecords [])
          | ClientError =>
              if (attempt <? max_retries - 1)%nat then
                let '(events, found) :=
                  attempts self url keywords location source (S attempt) fuel' in
                (request :: Sleep retry_delay :: events, found)
              else ([request], JRecords [])
          | OtherError => ([request], JRecords [])
          end
      end
  end.

Definition _make_api_request (self : fetcher)
    (url keywords location source : string) : list event * json :=
  attempts self url keywords location source 0 max_retries.

Definition parse_job_listing (now : string) (raw_data : dict) : dict :=
  <["title" := get raw_data "title" (VStr "")]>
  (<["company" := get raw_data "company" (VStr "")]>
  (<["location" := get raw_data "location" (VStr "")]>
  (<["description" := get raw_data "description" (VStr "")]>
  (<["url" := get raw_data "url" (VStr "")]>
  (<["posted_date" := get raw_data "posted_date" (VStr "")]>
  (<["salary" := get raw_data "salary" (VStr "")]>
  (<["job_type" := get raw_data "job_type" (VStr "")]>
  (<["source" := get raw_data "source" (VStr "unknown")]>
  (<["fetched_at" := VStr now]> ∅))))))))).

(** [[self.parse_job_listing(job) for job in jobs]] under the [try] of a
    [_fetch_*] method: iterating anything but a list of records (or an
    empty object) ends in [JobFetcherError]. *)
Definition parse_all (source : string) (found : json) : result (list dict) :=
  match found with
  | JRecords l => Ok (imap (fun i raw => parse_job_listing (utcnow source i) raw) l)
  | JObject [] => Ok []
  | JObject (_ :: _) | JOther => Raise JobFetcherError
  end.

Definition fetch_source (self : fetcher) (url keywords location source : string)
  : list event * result (list dict) :=
  let '(events, found) := _make_api_request self url keywords location source in
  (events, parse_all source found).

Definition _fetch_linkedin (self : fetcher) (keywords location : string) :=
  fetch_source self "https://api.linkedin.com/v2/jobs" keywords location "linkedin".

Definition _fetch_indeed (self : fetcher) (keywords location : string) :=
  fetch_source self "https://api.indeed.com/ads/apisearch" keywords location "indeed".

Definition _fetch_glassdoor (self : fetcher) (keywords location : string) :=
  fetch_source self "https://api.glassdoor.com/api/api.htm" keywords location "glassdoor".

(** The tasks of a run, one per known source, in the order of [sources]. *)
Definition task (self : fetcher) (keywords location source : string)
  : option (list event * result (list dict)) :=
  if String.eqb source "linkedin" then Some (_fetch_linkedin self keywords location)
  else if String.eqb source "indeed" then Some (_fetch_indeed self keywords location)
  else if String.eqb source "glassdoor" then Some (_fetch_glassdoor self keywords location)
  else None.

Definition tasks (self : fetcher) (keywords location : string)
  : list (list event * result (list dict)) :=
  omap (task self keywords location) (sources self).

(** [all_jobs]: the results of the tasks that did not raise, in task order *)
Fixpoint gather_jobs (results : list (result (list dict))) : list dict :=
  match results with
  | [] => []
  | Ok found :: rest => found ++ gather_jobs rest
  | Raise _ :: rest => gather_jobs rest
  end.

(** The listings returned, the fetcher afterwards, and the events of each
    task. *)
Definition _fetch_all_sources (self : fetcher) (keywords location : string)
  : list dict * fetcher * list (list event) :=
  let ran := tasks self keywords location in
  let all_jobs := gather_jobs (snd <$> ran) in
  (all_jobs,
   {| sources := sources self; jobs := all_jobs; session := session self |},
   fst <$> ran).

Definition with_session (self : fetcher) (s : session_state) : fetcher :=
  {| sources := sources self; jobs := jobs self; session := s |}.

Definition fetch_jobs (self : fetcher) (keywords location : string)
  : list dict * fetcher * list (list event) :=
  match session self with
  | NoSession =>
      let '(all_jobs, self', log) :=
        _fetch_all_sources (with_session self Open) keywords location in
      (all_jobs, with_session self' Closed, log)
  | _ => _fetch_all_sources self keywords location
  end.

End Fetch.

(** The key of a listing in [deduplicate_jobs], as the set stores it:
    Python hashes and compares [None], booleans, numbers and strings by
    value (so [1], [1.0] and [True] are one key); a list cannot be hashed,
    and datetimes hash by their time. *)
Inductive hkey :=
  | KNone
  | KNum (q : Q)
  | KStr (s : string)
  | KDate (t : Z).

Definition hash_key (v : value) : result hkey :=
  match v with
  | VNone => Ok KNone
  | VBool b => Ok (KNum (if b then 1 else 0))
  | VNum q => Ok (KNum (Qred q))
  | VStr s => Ok (KStr s)
  | VDate t => Ok (KDate t)
  | VList _ => Raise TypeError
  end.

#[global] Instance Q_eq_dec : EqDecision Q.
Proof. solve_decision. Defined.
#[global] Instance hkey_eq_dec : EqDecision hkey.
Proof. solve_decision. Defined.

Definition job_key (job : dict) : result (hkey * hkey * hkey) :=
  title ← hash_key (get job "title" (VStr ""));
  company ← hash_key (get job "company" (VStr ""));
  location ← hash_key (get job "location" (VStr ""));
  Ok (title, company, location).

(** The loop of [deduplicate_jobs] over the listings still to visit *)
Fixpoint dedupe_from (seen : list (hkey * hkey * hkey)) (todo : list dict)
  : result (list dict) :=
  match todo with
  | [] => Ok []
  | job :: rest =>
      key ← job_key job;
      if bool_decide (key ∈ seen) then dedupe_from seen rest
      else
        unique_jobs ← dedupe_from (key :: seen) rest;
        Ok (job :: unique_jobs)
  end.

Definition deduplicate_jobs (self : fetcher) : result (list dict * fetcher) :=
  unique_jobs ← dedupe_from [] (jobs self);
  Ok (unique_jobs,
      {| sources := sources self; jobs := unique_jobs; session := session self |}).

(** [self.filter_jobs(filters)] and [_matches_filter]: the filters are
    the items of the dictionary in their order. *)
Definition _matches_filter (job : dict) (key : string) (value : value)
  : result bool :=
  let job_value := get job key (VStr "") in
  match job_value with
  | VStr s =>
      wanted ← py_lower value;
      Ok (is_substring wanted (lower s))
  | _ => Ok (py_eqb job_value value)
  end.

(** [[job for job in filtered if self._matches_filter(job, key, value)]] *)
Fixpoint keep_matching (key : string) (value : value) (filtered : list dict)
  : result (list dict) :=
  match filtered with
  | [] => Ok []
  | job :: rest =>
      matches ← _matches_filter job key value;
      kept ← keep_matching key value rest;
      Ok (if matches : bool then job :: kept else kept)
  end.

Fixpoint apply_filters (filters : list (string * value)) (filtered : list dict)
  : result (list dict) :=
  match filters with
  | [] => Ok filtered
  | (key, value) :: rest =>
      if truthy value then
        filtered' ← keep_matching key value filtered;
        apply_filters rest filtered'
      else apply_filters rest filtered
  end.

Definition filter_jobs (self : fetcher) (filters : list (string * value))
  : result (list dict) :=
  apply_filters filters (jobs self).

(** [_count_by_field]: the dictionary [counts], as its items in insertion
    order; [counts[value] = counts.get(value, 0) + 1]. *)
Fixpoint bump (key : hkey) (counts : list (hkey * nat)) : list (hkey * nat) :=
  match counts with
  | [] => [(key, 1%nat)]
  | (k, n) :: rest =>
      if decide (k = key) then (k, S n) :: rest else (k, n) :: bump key rest
  end.

Fixpoint count_from (field : string) (counts : list (hkey * nat))
    (todo : list dict) : result (list (hkey * nat)) :=
  match todo with
  | [] => Ok counts
  | job :: rest =>
      key ← hash_key (get job field (VStr "unknown"));
      count_from field (bump key counts) rest
  end.

Definition _count_by_field (self : fetcher) (field : string)
  : result (list (hkey * nat)) :=
  count_from field [] (jobs self).

Record job_stats := {
  total_jobs : nat;
  stats_sources : list (hkey * nat);
  stats_companies : list (hkey * nat);
  stats_locations : list (hkey * nat);
  stats_job_types : list (hkey * nat)
}.

Definition get_job_stats (self : fetcher) : result job_stats :=
  by_source ← _count_by_field self "source";
  by_company ← _count_by_field self "company";
  by_location ← _count_by_field self "location";
  by_job_type ← _count_by_field self "job_type";
  Ok {| total_jobs := length (jobs self);
        stats_sources := by_source;
        stats_companies := by_company;
        stats_locations := by_location;
        stats_job_types := by_job_type |}.

End JobFetcher.

(** ** The design document's data model and reference functions

    The definitions of this module follow the wording of the design
    document, not the code: the typed listing and profile of its data
    model, its identity key and its scoring rule.  They are what the code
    is compared with below. *)

Module Design.

(** Removal of surrounding white space. *)
Fixpoint ltrim (s : string) : string :=
  match s with
  | String c s' => if Ascii.is_space c then ltrim s' else s
  | EmptyString => EmptyString
  end.

Definition trim (s : string) : string :=
  String.rev (ltrim (String.rev (ltrim s))).

(** A text field of a listing: the empty string when the source omits it. *)
Definition text (job : dict) (k : string) : string :=
  match job !! k with
  | Some (VStr s) => s
  | _ => ""
  end.

(** "Identity key = (lowercase(trim(title)), lowercase(trim(company)),
    lowercase(trim(location)))" *)
Definition identity_key (job : dict) : string * string * string :=
  (lower (trim (text job "title")),
   lower (trim (text job "company")),
   lower (trim (text job "location"))).

(** An optional field is absent when the dictionary has no such key or
    holds [None] under it. *)
Definition absent (d : dict) (k : string) : bool :=
  match d !! k with
  | None | Some VNone => true
  | Some _ => false
  end.

(** The listing and the profile of the data model, as far as scoring
    reads them. *)
Record JobListing := {
  skills : list string;
  location : string;
  salary : option Q;
  isRemote : bool;
  experienceYears : option Q
}.

Record UserProfile := {
  profile_skills : list string;
  preferredLocations : list string;
  minSalary : option Q;
  remoteOnly : bool;
  profile_experienceYears : option Q
}.

(** Reading a dictionary as a typed record.  A list of texts is a list
    whose elements are all strings; an optional number is a number, or
    absent, or the empty string the normaliser writes for a field the
    source omits. *)
Fixpoint texts (l : list value) : option (list string) :=
  match l with
  | [] => Some []
  | VStr s :: l' => (s ::.) <$> texts l'
  | _ :: _ => None
  end.

Definition text_list (d : dict) (k : string) : option (list string) :=
  match get d k (VList []) with
  | VList l => texts l
  | _ => None
  end.

Definition opt_number (d : dict) (k : string) : option (option Q) :=
  match get d k VNone with
  | VNone => Some None
  | VStr "" => Some None
  | VNum q => Some (Some q)
  | _ => None
  end.

Definition as_listing (job : dict) : option JobListing :=
  sk ← text_list job "skills";
  loc ← match get job "location" (VStr "") with VStr s => Some s | _ => None end;
  sal ← opt_number job "salary";
  ex ← opt_number job "experience_years";
  Some {| skills := sk; location := loc; salary := sal;
          isRemote := truthy (get job "is_remote" (VBool false));
          experienceYears := ex |}.

Definition as_profile (p : dict) : option UserProfile :=
  sk ← text_list p "skills";
  locs ← text_list p "locations";
  sal ← opt_number p "min_salary";
  ex ← opt_number p "experience_years";
  Some {| profile_skills := sk; preferredLocations := locs; minSalary := sal;
          remoteOnly := truthy (get p "remote_only" (VBool false));
          profile_experienceYears := ex |}.

(** The number of distinct skills in both sets, compared without case. *)
Definition common_skills (J : JobListing) (P : UserProfile) : nat :=
  size ((list_to_set (lower <$> skills J) : gset string)
        ∩ list_to_set (lower <$> profile_skills P)).

Definition location_match (J : JobListing) (P : UserProfile) : bool :=
  existsb (fun loc => is_substring (lower loc) (lower (location J)))
    (preferredLocations P).

Definition remote_match (J : JobListing) (P : UserProfile) : bool :=
  remoteOnly P && (isRemote J || is_substring "remote" (lower (location J))).

Definition bonus (b : bool) (points : Q) : Q := if b then points else 0%Q.

(** "+7.5 if profile.minSalary set, listing.salary present, and
    listing.salary ≥ profile.minSalary" *)
Definition salary_match (J : JobListing) (P : UserProfile) : bool :=
  match minSalary P, salary J with
  | Some m, Some s => Qle_bool m s
  | _, _ => false
  end.

(** "+3.0 if listing.experienceYears present, profile.experienceYears
    present, and listing.experienceYears ≤ profile.experienceYears" *)
Definition experience_match (J : JobListing) (P : UserProfile) : bool :=
  match experienceYears J, profile_experienceYears P with
  | Some j, Some p => Qle_bool j p
  | _, _ => false
  end.

(** The additive reference function of the design document. *)
Definition reference_score (J : JobListing) (P : UserProfile) : Q :=
  (inject_Z (Z.of_nat (common_skills J P)) * 5
   + bonus (location_match J P) 10
   + bonus (salary_match J P) (15 # 2)
   + bonus (remote_match J P) 8
   + bonus (experience_match J P) 3)%Q.

(** The same sum where a salary or an experience figure of zero counts as
    not given, on either side. *)
Definition nonzero (o : option Q) : option Q :=
  match o with
  | Some q => if Qeq_bool q 0 then None else Some q
  | None => None
  end.

Definition given_salary_match (J : JobListing) (P : UserProfile) : bool :=
  match nonzero (minSalary P), nonzero (salary J) with
  | Some m, Some s => Qle_bool m s
  | _, _ => false
  end.

Definition given_experience_match (J : JobListing) (P : UserProfile) : bool :=
  match nonzero (experienceYears J), nonzero (profile_experienceYears P) with
  | Some j, Some p => Qle_bool j p
  | _, _ => false
  end.

Definition given_score (J : JobListing) (P : UserProfile) : Q :=
  (inject_Z (Z.of_nat (common_skills J P)) * 5
   + bonus (location_match J P) 10
   + bonus (given_salary_match J P) (15 # 2)
   + bonus (remote_match J P) 8
   + bonus (given_experience_match J P) 3)%Q.

End Design.

(** ** Vocabulary of the statements *)

Import JobFetcher.

(** A listing whose title, company and location can be hashed. *)
Definition hashable (job : dict) : bool :=
  match job_key job with
  | Ok _ => true
  | Raise _ => false
  end.

(** A fetcher that holds the listings [l]. *)
Definition holding (l : list dict) : fetcher :=
  {| sources := default_sources; jobs := l; session := NoSession |}.

(** A listing with the three fields of the key. *)
Definition listing (title company location : string) : dict :=
  <["title" := VStr title]>
  (<["company" := VStr company]> (<["location" := VStr location]> ∅)).

(** Three listings of which the third repeats the first. *)
Definition repeated_listings : list dict :=
  [listing "ML Engineer" "Tech Corp" "Remote";
   listing "Data Scientist" "Tech Corp" "Remote";
   listing "ML Engineer" "Tech Corp" "Remote"].

(** The keys that [parse_job_listing] copies with the empty string as
    default, and all the keys of its result. *)
Definition copied_keys : list string :=
  ["title"; "company"; "location"; "description"; "url"; "posted_date";
   "salary"; "job_type"].

Definition listing_keys : list string :=
  copied_keys ++ ["source"; "fetched_at"].

(** Criteria that only set a minimum salary. *)
Definition salary_at_least (m : Q) : JobFilter.FilterCriteria := {|
  JobFilter.required_skills := None; JobFilter.preferred_skills := None;
  JobFilter.locations := None; JobFilter.remote_only := false;
  JobFilter.min_salary := Some m; JobFilter.max_salary := None;
  JobFilter.experience_min := None; JobFilter.experience_max := None;
  JobFilter.job_types := None; JobFilter.company_blacklist := None;
  JobFilter.company_whitelist := None; JobFilter.posted_within_days := None;
  JobFilter.keywords := None; JobFilter.exclude_keywords := None
|}.

(** The profile and the first listing of the example at the end of
    [job_ranker.py], and their reading as typed records. *)
Definition alex : dict :=
  <["name" := VStr "Alex"]>
  (<["skills" := VList [VStr "Python"; VStr "Machine Learning"; VStr "TensorFlow"]]>
  (<["locations" := VList [VStr "Remote"; VStr "San Francisco"]]>
  (<["min_salary" := VNum 100000]>
  (<["remote_only" := VBool true]>
  (<["experience_years" := VNum 5]> ∅))))).

Definition ml_engineer : dict :=
  <["skills" := VList [VStr "Python"; VStr "Machine Learning"]]>
  (<["salary" := VNum 120000]>
  (<["is_remote" := VBool true]>
  (<["experience_years" := VNum 3]>
  (listing "ML Engineer" "Tech Corp" "Remote")))).

Definition alex_profile : Design.UserProfile := {|
  Design.profile_skills := ["Python"; "Machine Learning"; "TensorFlow"];
  Design.preferredLocations := ["Remote"; "San Francisco"];
  Design.minSalary := Some 100000%Q;
  Design.remoteOnly := true;
  Design.profile_experienceYears := Some 5%Q
|}.

Definition ml_engineer_listing : Design.JobListing := {|
  Design.skills := ["Python"; "Machine Learning"];
  Design.location := "Remote";
  Design.salary := Some 120000%Q;
  Design.isRemote := true;
  Design.experienceYears := Some 3%Q
|}.

(** A profile that asks for a minimum salary of zero and a listing that
    pays 50000. *)
Definition any_salary : dict := <["min_salary" := VNum 0]> ∅.
Definition paid_job : dict := <["salary" := VNum 50000]> ∅.

(** The score of the listing at [l] in store [h], [0] where there is
    no listing or scoring raises. *)
Definition score_of (profile : dict) (h : heap) (l : loc) : Q :=
  match h !! l with
  | Some d =>
      match JobRanker._compute_score profile d with
      | Ok score => score
      | Raise _ => 0%Q
      end
  | None => 0%Q
  end.

(** Two dictionaries that agree on every key but ["rank_score"]. *)
Definition same_but_rank_score (d d' : dict) : Prop :=
  forall k, k <> "rank_score" -> d' !! k = d !! k.

(** [y] may follow [x] in a ranking: its key is not greater. *)
Definition not_above (x y : Q * loc) : Prop := (fst y <= fst x)%Q.

(** What a call that was handed the listings [jobs] may have done to the
    store: nothing to any other object, and nothing to a listing but under
    its ["rank_score"] key; no object appears or disappears. *)
Definition frame (jobs : list loc) (h h' : heap) : Prop :=
  forall l,
    (l ∉ jobs -> h' !! l = h !! l) /\
    option_Forall2 same_but_rank_score (h !! l) (h' !! l).

(** Two listings in "Remote" and a profile that prefers that location
    and nothing else: each listing scores 10.0. *)
Definition remote_fan : dict := <["locations" := VList [VStr "Remote"]]> ∅.
Definition listing_X : dict := listing "X" "Tech Corp" "Remote".
Definition listing_Y : dict := listing "Y" "StartUp Inc" "Remote".
Definition X_then_Y : heap := <[0%nat := listing_X]> (<[1%nat := listing_Y]> ∅).

(** Keyed listings whose keys are the scores. *)
Definition keyed_by_score (score : loc -> Q) (l : list (Q * loc)) : Prop :=
  Forall (fun x => fst x = score (snd x)) l.

(** The number of requests among the events of a task. *)
Definition requests (events : list event) : nat :=
  length (List.filter (fun e => match e with Get _ _ _ => true | Sleep _ => false end)
            events).

(** A world in which LinkedIn answers every request with status 429,
    Indeed answers with one record, and Glassdoor times out. *)
Definition linkedin_url : string := "https://api.linkedin.com/v2/jobs".
Definition indeed_url : string := "https://api.indeed.com/ads/apisearch".

Definition linkedin_limited (url keywords location : string) (attempt : nat)
  : outcome :=
  if String.eqb url linkedin_url then Response 429 JOther
  else if String.eqb url indeed_url then
    Response 200
      (JObject [("results",
                 JRecords [listing "ML Engineer" "Tech Corp" "Remote"])])
  else OtherError.

Definition noon (source : string) (i : nat) : string := "2026-01-01T12:00:00".

(** Filters of [JobFetcher.filter_jobs] whose values are all texts, as
    pairs of key and text; a listing matches such a filter when its field
    is a text that contains the filter's text, case ignored. *)
Definition text_filters (filters : list (string * string))
  : list (string * value) :=
  (fun kv => (fst kv, VStr (snd kv))) <$> filters.

Definition matches_text (job : dict) (key wanted : string) : bool :=
  match get job key (VStr "") with
  | VStr s => is_substring (lower wanted) (lower s)
  | _ => false
  end.

Definition passes_text_filters (filters : list (string * string)) (job : dict)
  : bool :=
  forallb (fun kv => String.eqb (snd kv) "" || matches_text job (fst kv) (snd kv))
    filters.

(** Whether a listing counts under [key] in [_count_by_field], and how
    many listings do. *)
Definition has_value (field : string) (key : hkey) (job : dict) : bool :=
  match hash_key (get job field (VStr "unknown")) with
  | Ok k => bool_decide (k = key)
  | Raise _ => false
  end.

Definition occurrences (field : string) (key : hkey) (l : list dict) : nat :=
  length (List.filter (has_value field key) l).

(** The count that [counts] holds for [key], [0] when it holds none. *)
Fixpoint count_of (key : hkey) (counts : list (hkey * nat)) : nat :=
  match counts with
  | [] => 0%nat
  | (k, n) :: rest => if decide (k = key) then n else count_of key rest
  end.

(** The seconds a task sleeps, and the most the retry loop can sleep
    from attempt [attempt] on with [fuel] attempts left. *)
Definition slept (events : list event) : nat :=
  sum_list_with (fun e => match e with Sleep n => n | Get _ _ _ => 0%nat end)
    events.

Fixpoint backoff_budget (attempt fuel : nat) : nat :=
  match fuel with
  | O => 0%nat
  | S fuel' => (retry_delay * (attempt + 1) + backoff_budget (S attempt) fuel')%nat
  end.

(** The events of [k] rate-limited attempts in a row, from [attempt] on. *)
Fixpoint rate_limited_prefix (request : event) (attempt k : nat) : list event :=
  match k with
  | O => []
  | S k' =>
      request :: Sleep (retry_delay * (attempt + 1))
        :: rate_limited_prefix request (S attempt) k'
  end.

(** The sources that [_fetch_all_sources] has a branch for. *)
Definition known_source (source : string) : bool :=
  String.eqb source "linkedin" || String.eqb source "indeed"
  || String.eqb source "glassdoor".

Definition with_sources (self : fetcher) (srcs : list string) : fetcher :=
  {| sources := srcs; jobs := jobs self; session := session self |}.

(** Whether [text] contains one of the entries of a criterion, case of
    the entries ignored. *)
Definition contains_any (entries : list string) (text : string) : bool :=
  existsb (fun e => is_substring (lower e) text) entries.

(** A listing whose company, title and description are texts or missing. *)
Definition has_text (d : dict) (k : string) : Prop :=
  exists s, get d k (VStr "") = VStr s.

(** A full-time remote listing with a description, criteria that use
    every kind of criterion it passes, and a store that also holds a
    listing with nothing but a salary. *)
Definition full_time_job : dict :=
  <["job_type" := VStr "Full-time"]>
  (<["description" := VStr "Work on ML models in Python"]> ml_engineer).

Definition picky : JobFilter.FilterCriteria := {|
  JobFilter.required_skills := Some ["Python"];
  JobFilter.preferred_skills := None;
  JobFilter.locations := Some ["New York"];
  JobFilter.remote_only := true;
  JobFilter.min_salary := Some 100000%Q;
  JobFilter.max_salary := Some 150000%Q;
  JobFilter.experience_min := None;
  JobFilter.experience_max := Some 5;
  JobFilter.job_types := Some ["full-time"];
  JobFilter.company_blacklist := Some ["startup"];
  JobFilter.company_whitelist := Some ["tech"];
  JobFilter.posted_within_days := Some 30;
  JobFilter.keywords := Some ["engineer"];
  JobFilter.exclude_keywords := Some ["intern "]
|}.

Definition two_listings : heap :=
  <[0%nat := full_time_job]> (<[1%nat := paid_job]> ∅).


(** * Properties *)

(** ** The error monad *)

Lemma bind_Ok {A B} (m : result A) (f : A -> result B) (b : B) :
  m ≫= f = Ok b <-> exists a, m = Ok a /\ f a = Ok b.
Proof.
  destruct m as [a|e]; simpl; split.
  - intros H. by exists a.
  - by intros (a' & [= <-] & H).
  - discriminate.
  - by intros (a' & ? & _).
Qed.

Lemma mapM_Ok_Forall2 {A B} (f : A -> result B) (l : list A) (k : list B) :
  mapM f l = Ok k <-> Forall2 (fun x y => f x = Ok y) l k.
Proof.
  revert k. induction l as [|x l IH]; intros k; simpl.
  - split.
    + intros [= <-]. constructor.
    + intros H. by inversion H.
  - split.
    + intros H. apply bind_Ok in H as (y & Hy & H).
      apply bind_Ok in H as (ys & Hys & [= <-]).
      constructor; [done|]. by apply IH.
    + intros H. inversion H as [|? y ? ys Hy Hys]; subst.
      apply bind_Ok. exists y. split; [done|].
      apply bind_Ok. exists ys. split; [by apply IH|done].
Qed.

(** ** Deduplication *)

Section Dedupe.

Implicit Types (l todo out : list dict) (seen : list (hkey * hkey * hkey)).

Lemma hashable_key (job : dict) :
  hashable job = true <-> exists key, job_key job = Ok key.
Proof.
  unfold hashable. destruct (job_key job) as [key|e]; split; eauto;
    [discriminate | by intros [? ?]].
Qed.

Lemma dedupe_from_total seen todo :
  Forall (fun job => hashable job = true) todo ->
  exists out, dedupe_from seen todo = Ok out.
Proof.
  intros Hall. revert seen.
  induction Hall as [|job rest Hjob _ IH]; intros seen; simpl; [by eexists|].
  apply hashable_key in Hjob as [key ->]. simpl.
  case_bool_decide; [apply IH|].
  destruct (IH (key :: seen)) as [out ->]. simpl. by eexists.
Qed.

(** The keys of the survivors are pairwise distinct and none of them was
    seen before. *)
Lemma dedupe_from_keys seen todo out :
  dedupe_from seen todo = Ok out ->
  exists keys, mapM job_key out = Ok keys /\ NoDup keys /\
               forall key, key ∈ keys -> key ∉ seen.
Proof.
  revert seen out. induction todo as [|job rest IH]; intros seen out; simpl.
  - intros [= <-]. exists []. split_and!; [done|constructor|set_solver].
  - intros H. apply bind_Ok in H as (key & Hkey & H).
    case_bool_decide as Hseen; [by apply IH|].
    apply bind_Ok in H as (out' & Hout' & [= <-]).
    destruct (IH _ _ Hout') as (keys & Hkeys & Hnd & Hfresh).
    exists (key :: keys). split_and!.
    + simpl. rewrite Hkey. simpl. by rewrite Hkeys.
    + constructor; [|done]. intros Hin. apply (Hfresh _ Hin). by left.
    + intros key' [->|Hin]%elem_of_cons; [done|].
      intros Hs. apply (Hfresh _ Hin). by right.
Qed.

(** The survivors are a subsequence of the input. *)
Lemma dedupe_from_sublist seen todo out :
  dedupe_from seen todo = Ok out -> sublist out todo.
Proof.
  revert seen out. induction todo as [|job rest IH]; intros seen out; simpl.
  - by intros [= <-].
  - intros H. apply bind_Ok in H as (key & Hkey & H).
    case_bool_decide.
    + apply sublist_cons, (IH _ _ H).
    + apply bind_Ok in H as (out' & Hout' & [= <-]).
      apply sublist_skip, (IH _ _ Hout').
Qed.

(** Only membership in [seen] matters. *)
Lemma dedupe_from_ext seen seen' todo :
  (forall key, key ∈ seen <-> key ∈ seen') ->
  dedupe_from seen todo = dedupe_from seen' todo.
Proof.
  revert seen seen'. induction todo as [|job rest IH]; intros seen seen' Heq;
    simpl; [done|].
  destruct (job_key job) as [key|e]; simpl; [|done].
  rewrite (bool_decide_ext _ _ (Heq key)). case_bool_decide.
  - by apply IH.
  - rewrite (IH (key :: seen) (key :: seen')); [done|].
    intros key'. rewrite !elem_of_cons. by rewrite Heq.
Qed.

(** Deduplicating a concatenation: the second part is filtered against
    everything the first part showed. *)
Lemma dedupe_from_app seen l1 l2 keys1 :
  mapM job_key l1 = Ok keys1 ->
  dedupe_from seen (l1 ++ l2) =
    out1 ← dedupe_from seen l1;
    out2 ← dedupe_from (keys1 ++ seen) l2;
    Ok (out1 ++ out2).
Proof.
  revert seen keys1. induction l1 as [|job rest IH]; intros seen keys1; simpl.
  - intros [= <-]. simpl. by destruct (dedupe_from seen l2).
  - intros H. apply bind_Ok in H as (key & Hkey & H).
    apply bind_Ok in H as (keys & Hkeys & [= <-]).
    rewrite Hkey. simpl. case_bool_decide as Hseen.
    + rewrite (IH _ _ Hkeys).
      rewrite (dedupe_from_ext (keys ++ seen) ((key :: keys) ++ seen) l2); [done|].
      intros key'. simpl. rewrite elem_of_cons, !elem_of_app.
      intuition (subst; auto).
    + rewrite (IH _ _ Hkeys).
      rewrite (dedupe_from_ext (keys ++ key :: seen) ((key :: keys) ++ seen) l2).
      * destruct (dedupe_from (key :: seen) rest) as [out1|]; simpl; [|done].
        by destruct (dedupe_from (key :: keys ++ seen) l2).
      * intros key'. simpl. rewrite elem_of_cons, !elem_of_app, elem_of_cons.
        intuition auto.
Qed.

(** Deduplicating the survivors again changes nothing. *)
Lemma dedupe_from_idempotent seen todo out :
  dedupe_from seen todo = Ok out -> dedupe_from seen out = Ok out.
Proof.
  revert seen out. induction todo as [|job rest IH]; intros seen out; simpl.
  - by intros [= <-].
  - intros H. apply bind_Ok in H as (key & Hkey & H).
    case_bool_decide as Hseen; [by apply IH|].
    apply bind_Ok in H as (out' & Hout' & [= <-]).
    simpl. rewrite Hkey. simpl. rewrite bool_decide_false by done.
    by rewrite (IH _ _ Hout').
Qed.

Lemma job_keys_total todo :
  Forall (fun job => hashable job = true) todo ->
  exists keys, mapM job_key todo = Ok keys.
Proof.
  induction 1 as [|job rest Hjob _ [keys IH]]; simpl; [by eexists|].
  apply hashable_key in Hjob as [key ->]. rewrite IH. by eexists.
Qed.

Lemma job_keys_elem todo keys key :
  mapM job_key todo = Ok keys ->
  key ∈ keys <-> exists job, job ∈ todo /\ job_key job = Ok key.
Proof.
  intros H%mapM_Ok_Forall2. induction H as [|job k rest ks Hk _ IH].
  - split; [by intros ?%elem_of_nil | by intros (? & ?%elem_of_nil & _)].
  - rewrite elem_of_cons, IH. split.
    + intros [->|(job' & Hin & Hjob')].
      * exists job. split; [by left | done].
      * exists job'. split; [by right | done].
    + intros (job' & [->|Hin]%elem_of_cons & Hjob').
      * left. congruence.
      * right. eauto.
Qed.

(** What becomes of the listing at one position of the input. *)
Lemma dedupe_from_position before job after keys key :
  mapM job_key before = Ok keys ->
  job_key job = Ok key ->
  dedupe_from [] (before ++ job :: after) =
    kept_before ← dedupe_from [] before;
    if bool_decide (key ∈ keys) then
      kept_after ← dedupe_from keys after;
      Ok (kept_before ++ kept_after)
    else
      kept_after ← dedupe_from (key :: keys) after;
      Ok (kept_before ++ job :: kept_after).
Proof.
  intros Hkeys Hkey. rewrite (dedupe_from_app _ _ _ _ Hkeys), app_nil_r.
  destruct (dedupe_from [] before) as [kept_before|]; simpl; [|done].
  rewrite Hkey. simpl. case_bool_decide; [done|].
  by destruct (dedupe_from (key :: keys) after).
Qed.

End Dedupe.

(** C1 (amended): deduplication uses the key (title, company, location)
    exactly as the listings store it, a missing field counting as the empty
    string and nothing being trimmed or lowercased.  For every sequence of
    listings with hashable key fields, [deduplicate_jobs] returns, stores
    the survivors in the fetcher, and no two listings at different
    positions of the output have the same stored key. *)
Theorem deduplicate_jobs_distinct_stored_keys (self : fetcher) :
  Forall (fun job => hashable job = true) (jobs self) ->
  exists out,
    deduplicate_jobs self
      = Ok (out, {| sources := sources self; jobs := out;
                    session := session self |}) /\
    forall i j a b,
      out !! i = Some a -> out !! j = Some b ->
      job_key a = job_key b -> i = j.
Proof.
  intros Hall. unfold deduplicate_jobs.
  destruct (dedupe_from_total [] _ Hall) as [out Hout].
  exists out. rewrite Hout. split; [done|].
  destruct (dedupe_from_keys _ _ _ Hout) as (keys & Hkeys & Hnd & _).
  apply mapM_Ok_Forall2 in Hkeys.
  intros i j a b Ha Hb Hab.
  destruct (Forall2_lookup_l _ _ _ _ _ Hkeys Ha) as (ka & Hka & Hja).
  destruct (Forall2_lookup_l _ _ _ _ _ Hkeys Hb) as (kb & Hkb & Hjb).
  assert (ka = kb) as -> by congruence.
  by apply (NoDup_lookup keys i j kb).
Qed.

(** The theorem at three listings of which the third repeats the first. *)
Lemma deduplicate_jobs_distinct_stored_keys_witness :
  exists out,
    deduplicate_jobs (holding repeated_listings)
      = Ok (out, {| sources := default_sources; jobs := out;
                    session := NoSession |}) /\
    forall i j a b,
      out !! i = Some a -> out !! j = Some b ->
      job_key a = job_key b -> i = j.
Proof.
  apply (deduplicate_jobs_distinct_stored_keys (holding repeated_listings)).
  repeat constructor.
Defined.

(** C1, as stated, fails: two listings whose titles differ only in case
    and surrounding space have the same identity key, and both are in the
    output of [deduplicate_jobs]. *)
Lemma deduplicate_jobs_keeps_case_variants :
  Design.identity_key (listing "ML Engineer" "Tech Corp" "Remote")
    = Design.identity_key (listing " ml engineer" "Tech Corp" "Remote") /\
  deduplicate_jobs
    (holding [listing "ML Engineer" "Tech Corp" "Remote";
              listing " ml engineer" "Tech Corp" "Remote"])
  = Ok ([listing "ML Engineer" "Tech Corp" "Remote";
         listing " ml engineer" "Tech Corp" "Remote"],
        holding [listing "ML Engineer" "Tech Corp" "Remote";
                 listing " ml engineer" "Tech Corp" "Remote"]).
Proof. split; vm_compute; reflexivity. Qed.

(** C5 (amended): on the key as the listings store it, for every sequence
    of listings with hashable key fields [deduplicate_jobs] returns a
    subsequence of its input (the survivors keep their relative order); a
    listing no earlier listing shares its stored key with survives at its
    place, a listing that repeats the stored key of an earlier one is
    dropped; and a second run on the result returns it unchanged. *)
Theorem deduplicate_jobs_first_occurrence (self : fetcher) :
  Forall (fun job => hashable job = true) (jobs self) ->
  exists out self',
    deduplicate_jobs self = Ok (out, self') /\ jobs self' = out /\
    sublist out (jobs self) /\
    (forall before job after,
       jobs self = before ++ job :: after ->
       (forall earlier, earlier ∈ before -> job_key earlier <> job_key job) ->
       exists kept_before kept_after,
         out = kept_before ++ job :: kept_after /\
         sublist kept_before before /\ sublist kept_after after) /\
    (forall before job after,
       jobs self = before ++ job :: after ->
       (exists earlier, earlier ∈ before /\ job_key earlier = job_key job) ->
       exists kept_before kept_after,
         out = kept_before ++ kept_after /\
         sublist kept_before before /\ sublist kept_after after) /\
    deduplicate_jobs self' = Ok (out, self').
Proof.
  intros Hall. unfold deduplicate_jobs.
  destruct (dedupe_from_total [] _ Hall) as [out Hout].
  exists out, {| sources := sources self; jobs := out; session := session self |}.
  rewrite Hout. simpl. rewrite (dedupe_from_idempotent _ _ _ Hout). simpl.
  split_and!; try done.
  - by eapply dedupe_from_sublist.
  - intros before job after Heq Hfirst. rewrite Heq in Hall, Hout.
    apply Forall_app in Hall as [Hbefore Hrest].
    apply Forall_cons in Hrest as [Hjob _].
    destruct (job_keys_total _ Hbefore) as [keys Hkeys].
    apply hashable_key in Hjob as [key Hkey].
    rewrite (dedupe_from_position _ _ _ _ _ Hkeys Hkey) in Hout.
    apply bind_Ok in Hout as (kept_before & Hkb & Hout).
    rewrite bool_decide_false in Hout.
    + apply bind_Ok in Hout as (kept_after & Hka & [= <-]).
      exists kept_before, kept_after.
      eauto using dedupe_from_sublist.
    + intros (earlier & Hin & Hk)%(job_keys_elem _ _ _ Hkeys).
      apply (Hfirst _ Hin). congruence.
  - intros before job after Heq (earlier & Hin & Hsame).
    rewrite Heq in Hall, Hout.
    apply Forall_app in Hall as [Hbefore Hrest].
    apply Forall_cons in Hrest as [Hjob _].
    destruct (job_keys_total _ Hbefore) as [keys Hkeys].
    apply hashable_key in Hjob as [key Hkey].
    rewrite (dedupe_from_position _ _ _ _ _ Hkeys Hkey) in Hout.
    apply bind_Ok in Hout as (kept_before & Hkb & Hout).
    rewrite bool_decide_true in Hout.
    + apply bind_Ok in Hout as (kept_after & Hka & [= <-]).
      exists kept_before, kept_after.
      eauto using dedupe_from_sublist.
    + apply (job_keys_elem _ _ _ Hkeys). exists earlier. split; [done|congruence].
Qed.

(** The theorem at three listings of which the third repeats the first. *)
Lemma deduplicate_jobs_first_occurrence_witness :
  exists out self',
    deduplicate_jobs (holding repeated_listings) = Ok (out, self') /\
    jobs self' = out /\
    sublist out repeated_listings /\
    (forall before job after,
       repeated_listings = before ++ job :: after ->
       (forall earlier, earlier ∈ before -> job_key earlier <> job_key job) ->
       exists kept_before kept_after,
         out = kept_before ++ job :: kept_after /\
         sublist kept_before before /\ sublist kept_after after) /\
    (forall before job after,
       repeated_listings = before ++ job :: after ->
       (exists earlier, earlier ∈ before /\ job_key earlier = job_key job) ->
       exists kept_before kept_after,
         out = kept_before ++ kept_after /\
         sublist kept_before before /\ sublist kept_after after) /\
    deduplicate_jobs self' = Ok (out, self').
Proof.
  apply (deduplicate_jobs_first_occurrence (holding repeated_listings)).
  repeat constructor.
Defined.

(** C5, as stated on the identity key, fails: the second listing below
    has the identity key of the first (its company differs in case and
    surrounding space only), it comes later, and it is not dropped. *)
Lemma deduplicate_jobs_keeps_later_identity :
  Design.identity_key (listing "Data Scientist" "Tech Corp" "New York")
    = Design.identity_key (listing "Data Scientist" "tech corp " "New York") /\
  deduplicate_jobs
    (holding [listing "Data Scientist" "Tech Corp" "New York";
              listing "Data Scientist" "tech corp " "New York"])
  = Ok ([listing "Data Scientist" "Tech Corp" "New York";
         listing "Data Scientist" "tech corp " "New York"],
        holding [listing "Data Scientist" "Tech Corp" "New York";
                 listing "Data Scientist" "tech corp " "New York"]).
Proof. split; vm_compute; reflexivity. Qed.

(** ** Normalisation *)

(** C6 (amended): [parse_job_listing] is total on raw records (it reads
    them with [get] only) and returns a listing with exactly the keys
    title, company, location, description, url, posted_date, salary,
    job_type, source and fetched_at.  Each of the first eight holds what
    the raw record holds under that key, and the empty string when the raw
    record has no such key: a missing salary or posting date becomes the
    empty string, it does not stay absent.  The source defaults to
    "unknown", fetched_at is the clock reading, and the listing has no
    experience_years and no is_remote key, whatever the raw record says. *)
Theorem parse_job_listing_defaults (now : string) (raw : dict) :
  Forall (fun k => parse_job_listing now raw !! k = Some (get raw k (VStr "")))
    copied_keys /\
  Forall (fun k => raw !! k = None ->
                   parse_job_listing now raw !! k = Some (VStr ""))
    copied_keys /\
  parse_job_listing now raw !! "source" = Some (get raw "source" (VStr "unknown")) /\
  parse_job_listing now raw !! "fetched_at" = Some (VStr now) /\
  dom (parse_job_listing now raw) = list_to_set listing_keys /\
  parse_job_listing now raw !! "experience_years" = None /\
  parse_job_listing now raw !! "is_remote" = None.
Proof.
  unfold parse_job_listing, copied_keys.
  split_and!; try (repeat constructor; by simplify_map_eq).
  repeat constructor; intros Hraw; unfold get; rewrite Hraw;
    by simplify_map_eq.
Qed.

(** The theorem at the empty raw record. *)
Lemma parse_job_listing_defaults_witness :
  parse_job_listing "2026-01-01T00:00:00" ∅ !! "salary" = Some (VStr "").
Proof.
  destruct (parse_job_listing_defaults "2026-01-01T00:00:00" ∅)
    as (_ & Hmissing & _).
  rewrite Forall_forall in Hmissing. apply Hmissing.
  - unfold copied_keys. do 6 right. by left.
  - reflexivity.
Defined.

(** C6, as stated, fails: the listing made from the empty raw record has a
    salary and a posting date (the empty string), and the listing made from
    a raw record located in "Remote" is not marked remote. *)
Lemma parse_job_listing_salary_present :
  Design.absent (parse_job_listing "2026-01-01T00:00:00" ∅) "salary" = false /\
  Design.absent (parse_job_listing "2026-01-01T00:00:00" ∅) "posted_date" = false /\
  truthy (get (parse_job_listing "2026-01-01T00:00:00"
                 (<["location" := VStr "Remote"]> ∅))
            "is_remote" (VBool false)) = false.
Proof. split_and!; reflexivity. Qed.

(** ** Filtering *)

Section FilterFacts.

Import JobFilter.

Variable fromisoformat : string -> option Z.
Variable clock : nat -> Z.

(** C7: for every criteria and every listing whose salary is absent (no
    such key, or [None] under it), the salary check passes whatever bounds
    the criteria set; the verdict on the listing is that of the other
    seven checks, and when those pass, filtering the one listing keeps it. *)
Theorem check_salary_passes_without_salary
    (criteria : FilterCriteria) (job : dict) :
  Design.absent job "salary" = true ->
  _check_salary criteria job = Ok true /\
  (forall now,
     _meets_criteria fromisoformat criteria now job =
     all_pass
       [ _check_required_skills criteria; _check_location criteria;
         _check_experience criteria; _check_job_type criteria;
         _check_company criteria;
         _check_posting_date fromisoformat criteria now;
         _check_keywords criteria ] job) /\
  (forall (l : loc) (h : heap),
     h !! l = Some job ->
     _meets_criteria fromisoformat criteria (clock 0) job = Ok true ->
     filter_jobs fromisoformat clock criteria [l] h =
       (Ok ([l], {| total_processed := 1; filtered_count := 1 |}), h)).
Proof.
  intros Habsent.
  assert (_check_salary criteria job = Ok true) as Hsalary.
  { unfold _check_salary, in_range, get. unfold Design.absent in Habsent.
    destruct (job !! "salary") as [[]|]; done. }
  split_and!; [done| |].
  - intros now. unfold _meets_criteria. simpl.
    destruct (_check_required_skills criteria job) as [[]|]; simpl; try done.
    destruct (_check_location criteria job) as [[]|]; simpl; try done.
    by rewrite Hsalary.
  - intros l h Hl Hmeets.
    unfold filter_jobs, mbind, st_bind. simpl.
    unfold mbind, st_bind, deref. rewrite Hl. unfold lift. by rewrite Hmeets.
Qed.

End FilterFacts.

(** The theorem at the listing with no field at all and a minimum salary. *)
Lemma check_salary_passes_without_salary_witness :
  JobFilter._check_salary (salary_at_least 100000) ∅ = Ok true.
Proof.
  apply (check_salary_passes_without_salary (fun _ => None) (fun _ => 0)
           (salary_at_least 100000) ∅).
  reflexivity.
Defined.

(** C10 at the failing input: the listing that [parse_job_listing] makes
    from the empty raw record holds the empty string as its salary; with a
    minimum salary set, the salary check compares that string with a
    number, and [filter_jobs] ends in a [TypeError] instead of a result. *)
Theorem filter_jobs_raises_on_parsed_listing
    (fromisoformat : string -> option Z) (clock : nat -> Z) (now : string) :
  JobFilter._check_salary (salary_at_least 100000) (parse_job_listing now ∅)
    = Raise TypeError /\
  fst (JobFilter.filter_jobs fromisoformat clock (salary_at_least 100000)
         [0%nat] (<[0%nat := parse_job_listing now ∅]> ∅))
    = Raise TypeError.
Proof. split; reflexivity. Qed.

(** ** Scoring *)

Section ScoreFacts.

Import JobRanker Design.

Lemma existsb_fmap {A B} (f : B -> bool) (g : A -> B) (l : list A) :
  existsb f (g <$> l) = existsb (fun x => f (g x)) l.
Proof. induction l as [|x l IH]; simpl; [done|]. f_equal. exact IH. Qed.

Lemma texts_lowered (l : list value) (sk : list string) :
  texts l = Some sk -> mapM py_lower l = Ok (lower <$> sk).
Proof.
  revert sk. induction l as [|v l IH]; intros sk; simpl.
  - by intros [= <-].
  - destruct v; try discriminate.
    destruct (texts l) as [sk'|]; simpl; [|discriminate].
    intros [= <-]. by rewrite (IH sk').
Qed.

Lemma text_list_lowered (d : dict) (k : string) (sk : list string) :
  text_list d k = Some sk ->
  lowered (get d k (VList [])) = Ok (lower <$> sk).
Proof.
  unfold text_list, lowered. destruct (get d k (VList [])); try discriminate.
  simpl. apply texts_lowered.
Qed.

Lemma cmp_ge_Qle (s m : Q) : cmp_holds OpGe (Qcompare s m) = Qle_bool m s.
Proof.
  symmetry. destruct (Qcompare_spec s m) as [Heq|Hlt|Hgt]; simpl.
  - apply Qle_bool_iff. rewrite Heq. apply Qle_refl.
  - apply not_true_is_false. intros Hle%Qle_bool_iff.
    by apply (Qlt_not_le _ _ Hlt).
  - apply Qle_bool_iff. by apply Qlt_le_weak.
Qed.

(** The guarded comparisons of [_compute_score] on optional numbers. *)
Lemma salary_guard (p job : dict) (om os : option Q) :
  opt_number p "min_salary" = Some om ->
  opt_number job "salary" = Some os ->
  (if truthy (get p "min_salary" VNone) && truthy (get job "salary" VNone)
   then py_cmp OpGe (get job "salary" VNone) (get p "min_salary" VNone)
   else Ok false)
  = Ok (match nonzero om, nonzero os with
        | Some m, Some s => Qle_bool m s
        | _, _ => false
        end).
Proof.
  unfold opt_number.
  destruct (get p "min_salary" VNone) as [| |m|[|??]| |]; try discriminate;
    intros [= <-];
    destruct (get job "salary" VNone) as [| |s|[|??]| |]; try discriminate;
    intros [= <-]; simpl; try done.
  - by destruct (Qeq_bool m 0).
  - destruct (Qeq_bool m 0), (Qeq_bool s 0); simpl; try done.
    by rewrite <- cmp_ge_Qle.
  - by destruct (Qeq_bool m 0).
Qed.

Lemma experience_guard (p job : dict) (oj op : option Q) :
  opt_number job "experience_years" = Some oj ->
  opt_number p "experience_years" = Some op ->
  (if truthy (get job "experience_years" VNone)
      && truthy (get p "experience_years" VNone)
   then py_cmp OpLe (get job "experience_years" VNone)
          (get p "experience_years" VNone)
   else Ok false)
  = Ok (match nonzero oj, nonzero op with
        | Some j, Some p => Qle_bool j p
        | _, _ => false
        end).
Proof.
  unfold opt_number.
  destruct (get job "experience_years" VNone) as [| |j|[|??]| |];
    try discriminate; intros [= <-];
    destruct (get p "experience_years" VNone) as [| |q|[|??]| |];
    try discriminate; intros [= <-]; simpl; try done.
  - by destruct (Qeq_bool j 0).
  - by destruct (Qeq_bool j 0), (Qeq_bool q 0).
  - by destruct (Qeq_bool j 0).
Qed.

(** Scoring a listing and a profile that read as typed records succeeds,
    and the score is the sum [given_score]. *)
Lemma compute_score_typed (profile job : dict) (J : JobListing) (P : UserProfile) :
  as_listing job = Some J ->
  as_profile profile = Some P ->
  exists score,
    _compute_score profile job = Ok score /\ (score == given_score J P)%Q.
Proof.
  unfold as_listing, as_profile. intros HJ HP.
  destruct (text_list job "skills") as [jsk|] eqn:Hjsk; [|done].
  destruct (get job "location" (VStr "")) as [| | |jloc| |] eqn:Hjloc;
    try done.
  destruct (opt_number job "salary") as [jsal|] eqn:Hjsal; [|done].
  destruct (opt_number job "experience_years") as [jex|] eqn:Hjex; [|done].
  destruct (text_list profile "skills") as [psk|] eqn:Hpsk; [|done].
  destruct (text_list profile "locations") as [plocs|] eqn:Hplocs; [|done].
  destruct (opt_number profile "min_salary") as [psal|] eqn:Hpsal; [|done].
  destruct (opt_number profile "experience_years") as [pex|] eqn:Hpex; [|done].
  simpl in HJ, HP. injection HJ as <-. injection HP as <-.
  unfold _compute_score.
  rewrite (text_list_lowered _ _ _ Hjsk), (text_list_lowered _ _ _ Hpsk),
    (text_list_lowered _ _ _ Hplocs), Hjloc.
  simpl.
  rewrite (salary_guard _ _ _ _ Hpsal Hjsal),
    (experience_guard _ _ _ _ Hjex Hpex).
  simpl. eexists. split; [reflexivity|].
  unfold given_score, given_salary_match, given_experience_match,
    location_match, remote_match, common_skills, bonus. simpl.
  rewrite existsb_fmap.
  repeat match goal with |- context [if ?b then _ else _] => destruct b end;
    ring.
Qed.

(** C3 (amended): for every listing and profile that read as the typed
    records of the data model, the relevance score is 5.0 per distinct
    case-insensitive skill in both skill sets, plus 10.0 if some preferred
    location is a case-insensitive substring of the listing's location,
    plus 7.5 when the profile's minimum salary and the listing's salary are
    both given and not zero and the salary reaches the minimum, plus 8.0 if
    the profile is remote-only and the listing is remote or its location
    contains "remote", plus 3.0 when both experience figures are given and
    not zero and the listing's is at most the profile's. *)
Theorem compute_score_given (profile job : dict) (J : JobListing) (P : UserProfile) :
  as_listing job = Some J ->
  as_profile profile = Some P ->
  exists score,
    _compute_score profile job = Ok score /\ (score == given_score J P)%Q.
Proof. apply compute_score_typed. Qed.

End ScoreFacts.

(** The theorem at the example of [job_ranker.py]: two common skills, a
    preferred location, the salary, the remote preference and the
    experience all count, 38.5 in all. *)
Lemma compute_score_given_witness :
  exists score,
    JobRanker._compute_score alex ml_engineer = Ok score /\
    (score == Design.given_score ml_engineer_listing alex_profile)%Q.
Proof.
  apply (compute_score_given alex ml_engineer ml_engineer_listing alex_profile);
    reflexivity.
Defined.

Example compute_score_example :
  exists score,
    JobRanker._compute_score alex ml_engineer = Ok score /\ (score == 77 # 2)%Q.
Proof. eexists. split; [vm_compute; reflexivity | reflexivity]. Qed.

(** C3, as stated, fails: with a minimum salary of 0 in the profile and a
    salary of 50000 in the listing, both set and the salary no smaller, the
    reference function adds 7.5 and the code adds nothing. *)
Lemma compute_score_zero_minimum_no_boost :
  Design.as_profile any_salary
    = Some {| Design.profile_skills := []; Design.preferredLocations := [];
              Design.minSalary := Some 0%Q; Design.remoteOnly := false;
              Design.profile_experienceYears := None |} /\
  Design.as_listing paid_job
    = Some {| Design.skills := []; Design.location := "";
              Design.salary := Some 50000%Q; Design.isRemote := false;
              Design.experienceYears := None |} /\
  exists score,
    JobRanker._compute_score any_salary paid_job = Ok score /\
    ~ (score ==
       Design.reference_score
         {| Design.skills := []; Design.location := "";
            Design.salary := Some 50000%Q; Design.isRemote := false;
            Design.experienceYears := None |}
         {| Design.profile_skills := []; Design.preferredLocations := [];
            Design.minSalary := Some 0%Q; Design.remoteOnly := false;
            Design.profile_experienceYears := None |})%Q.
Proof.
  split_and!; [reflexivity..|].
  eexists. split; [vm_compute; reflexivity|].
  vm_compute. discriminate.
Qed.

(** ** The stable descending sort *)

Section SortFacts.

Import JobRanker.

Implicit Types (x y : Q * loc) (l : list (Q * loc)).

Lemma insert_desc_perm x l : insert_desc x l ≡ₚ x :: l.
Proof.
  induction l as [|y l IH]; simpl; [done|].
  destruct (Qle_bool (fst y) (fst x)); [done|].
  rewrite IH. apply Permutation_swap.
Qed.

Lemma sorted_desc_perm l : sorted_desc l ≡ₚ l.
Proof.
  induction l as [|x l IH]; simpl; [done|].
  unfold sorted_desc in *. simpl. by rewrite insert_desc_perm, IH.
Qed.

Lemma insert_desc_sorted x l :
  StronglySorted not_above l -> StronglySorted not_above (insert_desc x l).
Proof.
  induction 1 as [|y l Hl IH Hy]; simpl.
  - repeat constructor.
  - destruct (Qle_bool (fst y) (fst x)) eqn:Hle.
    + apply Qle_bool_iff in Hle.
      constructor; [by constructor|].
      constructor; [done|].
      eapply Forall_impl; [exact Hy|].
      intros z Hz. unfold not_above in *. exact (Qle_trans _ _ _ Hz Hle).
    + constructor; [done|].
      rewrite insert_desc_perm. constructor; [|done].
      unfold not_above. apply Qlt_le_weak, Qnot_le_lt.
      intros H%Qle_bool_iff. congruence.
Qed.

Lemma sorted_desc_sorted l : StronglySorted not_above (sorted_desc l).
Proof.
  induction l as [|x l IH]; [constructor|].
  by apply insert_desc_sorted.
Qed.

(** Insertion never moves an element past one of equal key. *)
Lemma insert_desc_filter (q : Q) x l :
  List.filter (fun y => Qeq_bool (fst y) q) (insert_desc x l) =
  List.filter (fun y => Qeq_bool (fst y) q) (x :: l).
Proof.
  induction l as [|y l IH]; [done|].
  cbn [insert_desc]. destruct (Qle_bool (fst y) (fst x)) eqn:Hle; [done|].
  cbn [List.filter] in *. rewrite IH.
  destruct (Qeq_bool (fst x) q) eqn:Hx, (Qeq_bool (fst y) q) eqn:Hy; try done.
  apply Qeq_bool_iff in Hx, Hy.
  assert (Qle_bool (fst y) (fst x) = true); [|congruence].
  apply Qle_bool_iff. rewrite Hx, Hy. apply Qle_refl.
Qed.

Lemma sorted_desc_filter (q : Q) l :
  List.filter (fun y => Qeq_bool (fst y) q) (sorted_desc l) =
  List.filter (fun y => Qeq_bool (fst y) q) l.
Proof.
  induction l as [|x l IH]; [done|].
  change (sorted_desc (x :: l)) with (insert_desc x (sorted_desc l)).
  rewrite insert_desc_filter. cbn [List.filter]. by rewrite IH.
Qed.

End SortFacts.

(** ** Ranking and the store *)

Section RankFacts.

Import JobRanker.

Variable profile : dict.

Lemma compute_score_frame (d : dict) (v : value) :
  _compute_score profile (<["rank_score" := v]> d) = _compute_score profile d.
Proof.
  unfold _compute_score, get. by rewrite !lookup_insert_ne by done.
Qed.

Lemma score_all_cons (job : loc) (rest : list loc) (h : heap) :
  score_all profile (job :: rest) h =
  match h !! job with
  | None => (Raise Dangling, h)
  | Some d =>
      match _compute_score profile d with
      | Ok score =>
          score_all profile rest (<[job := <["rank_score" := VNum score]> d]> h)
      | Raise e => (Raise e, h)
      end
  end.
Proof.
  cbn [score_all]. unfold mbind, st_bind, deref, lift, setitem.
  destruct (h !! job) as [d|] eqn:Hd; [|done].
  destruct (_compute_score profile d); [|done].
  by rewrite Hd.
Qed.

Lemma frame_refl (jobs : list loc) (h : heap) : frame jobs h h.
Proof.
  intros l. split; [done|].
  destruct (h !! l); constructor. by intros k _.
Qed.

Lemma score_all_frame (jobs : list loc) (h : heap) :
  frame jobs h (snd (score_all profile jobs h)).
Proof.
  revert h. induction jobs as [|job rest IH]; intros h.
  - apply frame_refl.
  - rewrite score_all_cons.
    destruct (h !! job) as [d|] eqn:Hd; [|apply frame_refl].
    destruct (_compute_score profile d) as [score|]; [|apply frame_refl].
    intros l. destruct (IH (<[job := <["rank_score" := VNum score]> d]> h) l)
      as [Hout Hin].
    split.
    + intros [Hne Hrest]%not_elem_of_cons.
      by rewrite (Hout Hrest), lookup_insert_ne.
    + destruct (decide (job = l)) as [->|Hne].
      * rewrite lookup_insert_eq in Hin. rewrite Hd.
        inversion Hin as [d1 d2 Hsame|]; subst. constructor.
        intros k Hk. rewrite (Hsame k Hk). by apply lookup_insert_ne.
      * by rewrite lookup_insert_ne in Hin.
Qed.

Lemma rank_key_heap (job : loc) (h : heap) : snd (rank_key job h) = h.
Proof.
  unfold rank_key, mbind, st_bind, deref.
  destruct (h !! job) as [d|]; [|done].
  destruct (d !! "rank_score") as [v|]; [|done].
  by destruct (num_of v).
Qed.

Lemma keyed_heap (jobs : list loc) (h : heap) : snd (keyed jobs h) = h.
Proof.
  induction jobs as [|job rest IH]; [done|].
  cbn [keyed]. unfold mbind at 1, st_bind at 1.
  pose proof (rank_key_heap job h) as Hk.
  destruct (rank_key job h) as [[k|e] h1]; simpl in Hk; subst h1; [|done].
  unfold mbind, st_bind.
  destruct (keyed rest h) as [[ks|e] h2]; simpl in IH; by subst h2.
Qed.

Lemma rank_jobs_heap (jobs : list loc) (h : heap) :
  snd (rank_jobs profile jobs h) = snd (score_all profile jobs h).
Proof.
  unfold rank_jobs, mbind, st_bind.
  destruct (score_all profile jobs h) as [[[]|e] h1]; [|done].
  pose proof (keyed_heap jobs h1) as Hk.
  destruct (keyed jobs h1) as [[ks|e] h2]; simpl in *; by subst h2.
Qed.

Lemma score_of_insert (h : heap) (job l : loc) (d : dict) (v : value) :
  h !! job = Some d ->
  score_of profile (<[job := <["rank_score" := v]> d]> h) l
  = score_of profile h l.
Proof.
  intros Hd. unfold score_of. destruct (decide (job = l)) as [->|Hne].
  - by rewrite lookup_insert_eq, Hd, compute_score_frame.
  - by rewrite lookup_insert_ne.
Qed.

(** When every listing can be scored, the loop stores each score. *)
Lemma score_all_ok (jobs : list loc) (h : heap) :
  (forall l, l ∈ jobs ->
     exists d score, h !! l = Some d /\ _compute_score profile d = Ok score) ->
  exists h',
    score_all profile jobs h = (Ok tt, h') /\
    forall l, l ∈ jobs ->
      exists d, h !! l = Some d /\
        h' !! l = Some (<["rank_score" := VNum (score_of profile h l)]> d).
Proof.
  revert h. induction jobs as [|job rest IH]; intros h Hjobs.
  - exists h. split; [done|]. by intros l ?%elem_of_nil.
  - rewrite score_all_cons.
    destruct (Hjobs job) as (d & score & Hd & Hscore); [by left|].
    rewrite Hd, Hscore.
    set (h1 := <[job := <["rank_score" := VNum score]> d]> h).
    destruct (IH h1) as (h' & Hrun & Hstored).
    { intros l Hl. destruct (decide (job = l)) as [->|Hne].
      - exists (<["rank_score" := VNum score]> d), score.
        subst h1. by rewrite lookup_insert_eq, compute_score_frame.
      - destruct (Hjobs l) as (d' & score' & Hd' & Hscore'); [by right|].
        exists d', score'. subst h1. by rewrite lookup_insert_ne. }
    exists h'. split; [done|].
    assert (score_of profile h job = score) as Hjob.
    { unfold score_of. by rewrite Hd, Hscore. }
    intros l Hl. destruct (decide (l ∈ rest)) as [Hrest|Hrest].
    + destruct (Hstored l Hrest) as (d1 & Hd1 & Hl').
      subst h1. rewrite (score_of_insert _ _ _ _ _ Hd) in Hl'.
      destruct (decide (job = l)) as [->|Hne].
      * rewrite lookup_insert_eq in Hd1. injection Hd1 as <-.
        exists d. split; [done|]. by rewrite insert_insert_eq in Hl'.
      * rewrite lookup_insert_ne in Hd1 by done. by exists d1.
    + apply elem_of_cons in Hl as [->|?]; [|done].
      exists d. split; [done|].
      pose proof (score_all_frame rest h1 job) as [Hout _].
      rewrite Hrun in Hout. simpl in Hout.
      rewrite (Hout Hrest), Hjob. subst h1. by rewrite lookup_insert_eq.
Qed.

(** The sort keys are the scores just stored. *)
Lemma keyed_scored (score : loc -> Q) (jobs : list loc) (h' : heap) :
  (forall l, l ∈ jobs ->
     exists d, h' !! l = Some (<["rank_score" := VNum (score l)]> d)) ->
  keyed jobs h' = (Ok ((fun l => (score l, l)) <$> jobs), h').
Proof.
  induction jobs as [|job rest IH]; intros Hjobs; [done|].
  cbn [keyed]. unfold mbind at 1, st_bind at 1.
  destruct (Hjobs job) as (d & Hd); [by left|].
  unfold rank_key, mbind at 1, st_bind at 1, deref. rewrite Hd.
  rewrite lookup_insert_eq. simpl.
  unfold mbind, st_bind. rewrite IH; [done|].
  intros l Hl. apply Hjobs. by right.
Qed.

(** When the loop ends normally, every listing was there and scored. *)
Lemma score_all_inv (jobs : list loc) (h h' : heap) :
  score_all profile jobs h = (Ok tt, h') ->
  forall l, l ∈ jobs ->
    exists d score, h !! l = Some d /\ _compute_score profile d = Ok score.
Proof.
  revert h. induction jobs as [|job rest IH]; intros h Hrun l Hl.
  - by apply elem_of_nil in Hl.
  - rewrite score_all_cons in Hrun.
    destruct (h !! job) as [d|] eqn:Hd; [|done].
    destruct (_compute_score profile d) as [score|] eqn:Hscore; [|done].
    apply elem_of_cons in Hl as [->|Hl]; [by exists d, score|].
    destruct (IH _ Hrun l Hl) as (d1 & score1 & Hd1 & Hscore1).
    destruct (decide (job = l)) as [->|Hne].
    + rewrite lookup_insert_eq in Hd1. injection Hd1 as <-.
      rewrite compute_score_frame in Hscore1. by exists d, score1.
    + rewrite lookup_insert_ne in Hd1 by done. by exists d1, score1.
Qed.

(** The ranking of listings that can all be scored. *)
Lemma rank_jobs_ok (jobs : list loc) (h : heap) :
  (forall l, l ∈ jobs ->
     exists d score, h !! l = Some d /\ _compute_score profile d = Ok score) ->
  exists h',
    rank_jobs profile jobs h =
      (Ok (snd <$> sorted_desc ((fun l => (score_of profile h l, l)) <$> jobs)),
       h') /\
    forall l, l ∈ jobs ->
      exists d, h !! l = Some d /\
        h' !! l = Some (<["rank_score" := VNum (score_of profile h l)]> d).
Proof.
  intros Hjobs. destruct (score_all_ok _ _ Hjobs) as (h' & Hrun & Hstored).
  exists h'. split; [|done].
  unfold rank_jobs, mbind, st_bind. rewrite Hrun.
  rewrite (keyed_scored (score_of profile h)); [done|].
  intros l Hl. destruct (Hstored l Hl) as (d & _ & Hd). by exists d.
Qed.

End RankFacts.

Section RankedOrder.

Variable score : loc -> Q.

Lemma keyed_by_score_fmap (jobs : list loc) :
  keyed_by_score score ((fun l => (score l, l)) <$> jobs).
Proof. induction jobs; constructor; done. Qed.

Lemma ranked_sorted (l : list (Q * loc)) :
  keyed_by_score score l ->
  StronglySorted not_above l ->
  StronglySorted (fun a b => (score b <= score a)%Q) (snd <$> l).
Proof.
  intros Hkeys Hsorted. induction Hsorted as [|x l Hl IH Hx]; [constructor|].
  apply Forall_cons in Hkeys as [Hkx Hkl].
  simpl. constructor; [by apply IH|].
  apply Forall_fmap, Forall_forall. intros y Hy. simpl.
  rewrite Forall_forall in Hx, Hkl.
  specialize (Hx y Hy). unfold not_above in Hx.
  by rewrite <- Hkx, <- (Hkl y Hy).
Qed.

Lemma ranked_filter (q : Q) (l : list (Q * loc)) :
  keyed_by_score score l ->
  List.filter (fun j => Qeq_bool (score j) q) (snd <$> l)
  = snd <$> List.filter (fun x => Qeq_bool (fst x) q) l.
Proof.
  induction 1 as [|x l Hx _ IH]; [done|].
  simpl. rewrite <- Hx.
  destruct (Qeq_bool (fst x) q); simpl; [f_equal|]; exact IH.
Qed.

End RankedOrder.

(** C4: for every list of listings and every profile that read as the
    typed records of the data model, [rank_jobs] returns; what it returns
    is a rearrangement of its input in which the scores never increase, and
    for every score the listings with that score come in their input order.
    The score is the one [_compute_score] gives the listing, which the
    call also stores under ["rank_score"]. *)
Theorem rank_jobs_stable_descending
    (profile : dict) (P : Design.UserProfile) (jobs : list loc) (h : heap) :
  Design.as_profile profile = Some P ->
  (forall l, l ∈ jobs ->
     exists d J, h !! l = Some d /\ Design.as_listing d = Some J) ->
  exists ranked h',
    JobRanker.rank_jobs profile jobs h = (Ok ranked, h') /\
    (forall l, l ∈ jobs ->
       exists d, h !! l = Some d /\
         JobRanker._compute_score profile d = Ok (score_of profile h l) /\
         h' !! l = Some (<["rank_score" := VNum (score_of profile h l)]> d)) /\
    ranked ≡ₚ jobs /\
    StronglySorted
      (fun a b => (score_of profile h b <= score_of profile h a)%Q) ranked /\
    forall q,
      List.filter (fun l => Qeq_bool (score_of profile h l) q) ranked
      = List.filter (fun l => Qeq_bool (score_of profile h l) q) jobs.
Proof.
  intros HP Hjobs.
  assert (forall l, l ∈ jobs ->
            exists d score, h !! l = Some d /\
              JobRanker._compute_score profile d = Ok score) as Hscored.
  { intros l Hl. destruct (Hjobs l Hl) as (d & J & Hd & HJ).
    destruct (compute_score_typed _ _ _ _ HJ HP) as (score & Hscore & _).
    by exists d, score. }
  destruct (rank_jobs_ok profile jobs h Hscored) as (h' & Hrun & Hstored).
  set (score := score_of profile h) in *.
  set (ks := (fun l => (score l, l)) <$> jobs) in *.
  assert (keyed_by_score score (JobRanker.sorted_desc ks)) as Hkeys.
  { unfold keyed_by_score. rewrite sorted_desc_perm.
    apply keyed_by_score_fmap. }
  exists (snd <$> JobRanker.sorted_desc ks), h'. split_and!.
  - done.
  - intros l Hl. destruct (Hstored l Hl) as (d & Hd & Hl').
    exists d. split_and!; [done| |done].
    destruct (Hscored l Hl) as (d' & s & Hd' & Hs).
    unfold score, score_of. rewrite Hd. rewrite Hd in Hd'.
    injection Hd' as <-. by rewrite Hs.
  - rewrite sorted_desc_perm. unfold ks. rewrite <- list_fmap_compose.
    by rewrite list_fmap_id.
  - apply ranked_sorted; [done | apply sorted_desc_sorted].
  - intros q. rewrite (ranked_filter score q _ Hkeys), sorted_desc_filter.
    rewrite <- (ranked_filter score q ks (keyed_by_score_fmap score jobs)).
    unfold ks. rewrite <- list_fmap_compose. by rewrite list_fmap_id.
Qed.

(** The theorem at two listings that both score 10.0, in the order
    [X, Y]. *)
Lemma rank_jobs_stable_descending_witness :
  exists ranked h',
    JobRanker.rank_jobs remote_fan [0%nat; 1%nat] X_then_Y = (Ok ranked, h') /\
    (forall l, l ∈ [0%nat; 1%nat] ->
       exists d, X_then_Y !! l = Some d /\
         JobRanker._compute_score remote_fan d
           = Ok (score_of remote_fan X_then_Y l) /\
         h' !! l
           = Some (<["rank_score" := VNum (score_of remote_fan X_then_Y l)]> d)) /\
    ranked ≡ₚ [0%nat; 1%nat] /\
    StronglySorted
      (fun a b => (score_of remote_fan X_then_Y b
                   <= score_of remote_fan X_then_Y a)%Q) ranked /\
    forall q,
      List.filter (fun l => Qeq_bool (score_of remote_fan X_then_Y l) q) ranked
      = List.filter (fun l => Qeq_bool (score_of remote_fan X_then_Y l) q)
          [0%nat; 1%nat].
Proof.
  apply (rank_jobs_stable_descending remote_fan
           {| Design.profile_skills := []; Design.preferredLocations := ["Remote"];
              Design.minSalary := None; Design.remoteOnly := false;
              Design.profile_experienceYears := None |}
           [0%nat; 1%nat] X_then_Y).
  - reflexivity.
  - intros l Hl.
    apply elem_of_cons in Hl as [->|Hl]; [eexists _, _; split; reflexivity|].
    apply elem_of_cons in Hl as [->|Hl]; [eexists _, _; split; reflexivity|].
    by apply elem_of_nil in Hl.
Defined.

(** The example of the design document: X and Y both score 10.0; ranked
    in the order [X, Y] they come out as [X, Y], and in the order [Y, X] as
    [Y, X]. *)
Example rank_jobs_tie_keeps_input_order :
  (score_of remote_fan X_then_Y 0 == 10)%Q /\
  (score_of remote_fan X_then_Y 1 == 10)%Q /\
  fst (JobRanker.rank_jobs remote_fan [0%nat; 1%nat] X_then_Y)
    = Ok [0%nat; 1%nat] /\
  fst (JobRanker.rank_jobs remote_fan [1%nat; 0%nat] X_then_Y)
    = Ok [1%nat; 0%nat].
Proof. split_and!; vm_compute; reflexivity. Qed.

(** ** What the agents do to their input *)

Lemma filter_from_heap fromisoformat clock criteria (i : nat)
    (jobs : list loc) (h : heap) :
  snd (JobFilter.filter_from fromisoformat clock criteria i jobs h) = h.
Proof.
  revert i. induction jobs as [|job rest IH]; intros i; [done|].
  cbn [JobFilter.filter_from]. unfold mbind, st_bind, deref, lift.
  destruct (h !! job) as [d|]; [|done].
  destruct (JobFilter._meets_criteria _ _ _ d) as [keep|]; [|done].
  specialize (IH (S i)).
  destruct (JobFilter.filter_from _ _ _ (S i) rest h) as [[kept|e] h1];
    simpl in IH; by subst h1.
Qed.

(** C2 (amended): [filter_jobs] never changes a listing: the store after
    the call is the store before it, whether the call returns or raises.
    [rank_jobs] changes its input listings, and only by storing the score
    under their ["rank_score"] key: every other key of every listing keeps
    its value, objects that were not passed are untouched, also when the
    call raises midway; and when it returns, each listing passed holds its
    relevance score under ["rank_score"]. *)
Theorem agents_change_only_rank_score :
  (forall fromisoformat clock criteria (jobs : list loc) (h : heap),
     snd (JobFilter.filter_jobs fromisoformat clock criteria jobs h) = h) /\
  (forall (profile : dict) (jobs : list loc) (h : heap),
     frame jobs h (snd (JobRanker.rank_jobs profile jobs h))) /\
  (forall (profile : dict) (jobs ranked : list loc) (h h' : heap),
     JobRanker.rank_jobs profile jobs h = (Ok ranked, h') ->
     forall l, l ∈ jobs ->
       exists d score,
         h !! l = Some d /\
         JobRanker._compute_score profile d = Ok score /\
         h' !! l = Some (<["rank_score" := VNum score]> d)).
Proof.
  split_and!.
  - intros fromisoformat clock criteria jobs h.
    unfold JobFilter.filter_jobs, mbind, st_bind.
    pose proof (filter_from_heap fromisoformat clock criteria 0 jobs h) as Hh.
    destruct (JobFilter.filter_from _ _ _ 0%nat jobs h) as [[kept|e] h1];
      simpl in *; by subst h1.
  - intros profile jobs h. rewrite rank_jobs_heap. apply score_all_frame.
  - intros profile jobs ranked h h' Hrun l Hl.
    assert (exists h1, JobRanker.score_all profile jobs h = (Ok tt, h1))
      as [h1 Hscore].
    { unfold JobRanker.rank_jobs, mbind, st_bind in Hrun.
      destruct (JobRanker.score_all profile jobs h) as [[[]|e] h1]; [|done].
      by exists h1. }
    pose proof (score_all_inv profile jobs h h1 Hscore) as Hscored.
    destruct (rank_jobs_ok profile jobs h Hscored) as (h2 & Hrun' & Hstored).
    rewrite Hrun in Hrun'. injection Hrun' as _ <-.
    destruct (Hstored l Hl) as (d & Hd & Hl').
    destruct (Hscored l Hl) as (d' & score & Hd' & Hs).
    rewrite Hd in Hd'. injection Hd' as <-.
    exists d, score. split_and!; [done..|].
    rewrite Hl'. unfold score_of. by rewrite Hd, Hs.
Qed.

(** The last part of the theorem at the ranking of X and Y. *)
Lemma agents_change_only_rank_score_witness :
  exists d score,
    X_then_Y !! 1%nat = Some d /\
    JobRanker._compute_score remote_fan d = Ok score /\
    snd (JobRanker.rank_jobs remote_fan [0%nat; 1%nat] X_then_Y) !! 1%nat
      = Some (<["rank_score" := VNum score]> d).
Proof.
  destruct agents_change_only_rank_score as (_ & _ & Hstored).
  apply (Hstored remote_fan [0%nat; 1%nat] [0%nat; 1%nat] X_then_Y).
  - vm_compute. reflexivity.
  - by right; left.
Defined.

(** C2, as stated, fails: after [rank_jobs] the listing passed to it has a
    ["rank_score"] key that it did not have before the call; the score is
    stored onto the listing. *)
Lemma rank_jobs_stores_score_on_listing :
  ml_engineer !! "rank_score" = None /\
  exists d' score,
    snd (JobRanker.rank_jobs alex [0%nat] (<[0%nat := ml_engineer]> ∅)) !! 0%nat
      = Some d' /\
    d' !! "rank_score" = Some (VNum score) /\
    d' <> ml_engineer.
Proof.
  split; [reflexivity|].
  eexists _, _. split_and!.
  - vm_compute. reflexivity.
  - vm_compute. reflexivity.
  - intros Heq. apply (f_equal (fun d => d !! "rank_score")) in Heq.
    vm_compute in Heq. discriminate.
Qed.

(** ** Fetching *)

Section FetchFacts.

Variable net : string -> string -> string -> nat -> outcome.
Variable utcnow : string -> nat -> string.

(** Whatever the world answers, a task makes no more requests than the
    attempts it has left. *)
Lemma attempts_bound self url keywords location source (attempt fuel : nat) :
  (requests (fst (attempts net self url keywords location source attempt fuel))
   <= fuel)%nat.
Proof.
  unfold requests. revert attempt.
  induction fuel as [|fuel IH]; intros attempt; simpl; [done|].
  specialize (IH (S attempt)).
  destruct (attempts net self url keywords location source (S attempt) fuel)
    as [events found].
  assert (forall n, (1 <= S n)%nat) as Hone by (intros n; apply le_n_S, Nat.le_0_l).
  destruct (session self); simpl; try apply Nat.le_0_l.
  destruct (net url keywords location attempt) as [status data| |].
  - destruct (Z.eqb status 200).
    + destruct (_extract_jobs_from_response data source); simpl; apply Hone.
    + destruct (Z.eqb status 429); simpl in *; [by apply le_n_S | apply Hone].
  - destruct (Nat.ltb attempt _); simpl in *; [by apply le_n_S | apply Hone].
  - simpl. apply Hone.
Qed.

(** With an open session a task starts with a request. *)
Lemma attempts_first_request self url keywords location source
    (attempt fuel : nat) :
  session self = Open ->
  exists rest,
    fst (attempts net self url keywords location source attempt (S fuel))
    = Get url keywords location :: rest.
Proof.
  intros Hopen. cbn [attempts]. rewrite Hopen.
  destruct (attempts net self url keywords location source (S attempt) fuel)
    as [events found].
  destruct (net url keywords location attempt) as [status data| |].
  - destruct (Z.eqb status 200).
    + destruct (_extract_jobs_from_response data source); by eexists.
    + destruct (Z.eqb status 429); by eexists.
  - destruct (Nat.ltb attempt _); by eexists.
  - by eexists.
Qed.

(** A source that answers 429 to every request. *)
Lemma attempts_rate_limited self url keywords location source :
  session self = Open ->
  (forall attempt, exists data,
     net url keywords location attempt = Response 429 data) ->
  _make_api_request net self url keywords location source
  = ([Get url keywords location; Sleep 1;
      Get url keywords location; Sleep 2;
      Get url keywords location; Sleep 3], JRecords []).
Proof.
  intros Hopen Hlimited. unfold _make_api_request, max_retries. simpl.
  rewrite Hopen.
  destruct (Hlimited 0%nat) as [d0 ->], (Hlimited 1%nat) as [d1 ->],
    (Hlimited 2%nat) as [d2 ->].
  done.
Qed.

Lemma gather_jobs_elem (results : list (result (list dict)))
    (found : list dict) (job : dict) :
  Ok found ∈ results -> job ∈ found -> job ∈ gather_jobs results.
Proof.
  intros Hin Hjob. induction results as [|r results IH]; [by apply elem_of_nil in Hin|].
  apply elem_of_cons in Hin as [<-|Hin]; simpl.
  - apply elem_of_app. by left.
  - destruct r; [apply elem_of_app; right|]; by apply IH.
Qed.

Lemma with_session_open self :
  session self = Open -> with_session self Open = self.
Proof. destruct self. simpl. by intros ->. Qed.

Lemma fetch_jobs_opens self keywords location :
  session self <> Closed ->
  fst (fst (fetch_jobs net utcnow self keywords location))
    = gather_jobs (snd <$> tasks net utcnow (with_session self Open) keywords location) /\
  snd (fetch_jobs net utcnow self keywords location)
    = fst <$> tasks net utcnow (with_session self Open) keywords location.
Proof.
  intros Hsession. unfold fetch_jobs.
  destruct (session self) eqn:Hs; [done| |done].
  by rewrite (with_session_open _ Hs).
Qed.

(** C9: in every run, whatever the other sources do, a source that answers
    every request with 429 is requested three times, with sleeps of 1, 2
    and 3 times the base delay of one second after the first, second and
    third attempt, and then contributes the empty list; no task makes more
    than [max_retries] requests; every task runs to its end, and every
    listing that another source's task returns is in the output of the
    run. *)
Theorem rate_limited_source_is_isolated
    (self : fetcher) (keywords location limited : string) :
  session self <> Closed ->
  (forall attempt, exists data,
     net limited keywords location attempt = Response 429 data) ->
  (forall source,
     fetch_source net utcnow (with_session self Open) limited keywords location
       source
     = ([Get limited keywords location; Sleep (retry_delay * 1);
         Get limited keywords location; Sleep (retry_delay * 2);
         Get limited keywords location; Sleep (retry_delay * 3)], Ok [])) /\
  Forall (fun events => (requests events <= max_retries)%nat)
    (snd (fetch_jobs net utcnow self keywords location)) /\
  snd (fetch_jobs net utcnow self keywords location)
    = fst <$> tasks net utcnow (with_session self Open) keywords location /\
  (forall source events found job,
     source ∈ sources self ->
     task net utcnow (with_session self Open) keywords location source
       = Some (events, Ok found) ->
     job ∈ found ->
     job ∈ fst (fst (fetch_jobs net utcnow self keywords location))).
Proof.
  intros Hsession Hlimited.
  destruct (fetch_jobs_opens self keywords location Hsession) as [Hjobs Hlog].
  split_and!.
  - intros source. unfold fetch_source.
    by rewrite attempts_rate_limited.
  - rewrite Hlog. apply Forall_fmap, Forall_forall.
    intros [events found] (source & _ & Htask)%list_elem_of_omap. simpl.
    unfold task in Htask.
    repeat match type of Htask with
           | (if ?b then _ else _) = _ => destruct b
           end; try done;
      injection Htask as Htask;
      unfold _fetch_linkedin, _fetch_indeed, _fetch_glassdoor, fetch_source,
        _make_api_request in Htask;
      match type of Htask with
      | context [attempts ?n ?s ?u ?k ?l ?src ?a ?f] =>
          pose proof (attempts_bound s u k l src a f) as Hbound;
          destruct (attempts n s u k l src a f)
      end; by injection Htask as <- _.
  - done.
  - intros source events found job Hsource Htask Hjob.
    rewrite Hjobs. apply (gather_jobs_elem _ found); [|done].
    apply list_elem_of_fmap. exists (events, Ok found). split; [done|].
    apply list_elem_of_omap. by exists source.
Qed.

(** C8 at the failing input: with the empty string as keywords the
    default fetcher rejects nothing; it runs its three tasks and each of
    them sends a request with the empty keywords. *)
Theorem fetch_jobs_accepts_empty_keywords :
  length (snd (fetch_jobs net utcnow (new None) "" "")) = 3%nat /\
  Forall (fun events => exists url rest, events = Get url "" "" :: rest)
    (snd (fetch_jobs net utcnow (new None) "" "")).
Proof.
  split; [done|].
  unfold fetch_jobs, new. simpl.
  unfold _fetch_linkedin, _fetch_indeed, _fetch_glassdoor, fetch_source,
    _make_api_request, max_retries.
  repeat constructor;
    match goal with
    | |- context [attempts ?n ?s ?u ?k ?l ?src ?a (S ?f)] =>
        destruct (attempts_first_request s u k l src a f eq_refl) as [rest Hrest];
        destruct (attempts n s u k l src a (S f)); simpl in *; subst; eauto
    end.
Qed.

End FetchFacts.

(** The theorem in the world where LinkedIn always answers 429: its task
    makes three requests and returns nothing, and the listing that Indeed
    returns is in the output of the run. *)
Lemma rate_limited_source_is_isolated_witness :
  _fetch_linkedin linkedin_limited noon (with_session (new None) Open)
    "ML Engineer" "Remote"
  = ([Get linkedin_url "ML Engineer" "Remote"; Sleep 1;
      Get linkedin_url "ML Engineer" "Remote"; Sleep 2;
      Get linkedin_url "ML Engineer" "Remote"; Sleep 3], Ok []) /\
  parse_job_listing "2026-01-01T12:00:00"
    (listing "ML Engineer" "Tech Corp" "Remote")
  ∈ fst (fst (fetch_jobs linkedin_limited noon (new None)
                "ML Engineer" "Remote")).
Proof.
  destruct (rate_limited_source_is_isolated linkedin_limited noon (new None)
              "ML Engineer" "Remote" linkedin_url)
    as (Hlimited & _ & _ & Hothers).
  - discriminate.
  - intros attempt. by eexists.
  - split; [apply Hlimited|].
    eapply (Hothers "indeed").
    + right. by left.
    + reflexivity.
    + by left.
Defined.

Example fetch_jobs_linkedin_limited :
  fst (fst (fetch_jobs linkedin_limited noon (new None) "ML Engineer" "Remote"))
  = [parse_job_listing "2026-01-01T12:00:00"
       (listing "ML Engineer" "Tech Corp" "Remote")].
Proof. vm_compute. reflexivity. Qed.

(** ** The fetcher's own filter *)

Section FetcherFilterFacts.

Lemma filter_filter_and {A} (f g : A -> bool) (l : list A) :
  List.filter f (List.filter g l) = List.filter (fun x => g x && f x) l.
Proof.
  induction l as [|x l IH]; [done|]. simpl.
  destruct (g x); simpl; [destruct (f x)|]; by rewrite IH.
Qed.

Lemma matches_filter_text (job : dict) (key wanted : string) :
  _matches_filter job key (VStr wanted) = Ok (matches_text job key wanted).
Proof.
  unfold _matches_filter, matches_text.
  by destruct (get job key (VStr "")).
Qed.

Lemma keep_matching_text (key wanted : string) (l : list dict) :
  keep_matching key (VStr wanted) l
  = Ok (List.filter (fun job => matches_text job key wanted) l).
Proof.
  induction l as [|job rest IH]; [done|].
  cbn [keep_matching List.filter]. rewrite matches_filter_text, IH. simpl.
  by destruct (matches_text job key wanted).
Qed.

Lemma apply_filters_text (filters : list (string * string)) (l : list dict) :
  apply_filters (text_filters filters) l
  = Ok (List.filter (passes_text_filters filters) l).
Proof.
  revert l. induction filters as [|[key wanted] rest IH]; intros l.
  - simpl. f_equal. induction l as [|x l IHl]; [done|]. simpl. by f_equal.
  - cbn [text_filters fmap list_fmap apply_filters fst snd truthy].
    fold (text_filters rest).
    destruct (String.eqb wanted "") eqn:Hempty; cbn [negb].
    + rewrite IH. f_equal. apply List.filter_ext. intros job.
      unfold passes_text_filters. simpl. by rewrite Hempty.
    + rewrite keep_matching_text. simpl. rewrite IH, filter_filter_and.
      f_equal. apply List.filter_ext. intros job.
      unfold passes_text_filters. simpl. by rewrite Hempty.
Qed.

Lemma keep_matching_sound (key : string) (v : value) (l out : list dict) :
  keep_matching key v l = Ok out ->
  sublist out l /\
  forall job, job ∈ out -> _matches_filter job key v = Ok true.
Proof.
  revert out. induction l as [|job rest IH]; intros out; simpl.
  - intros [= <-]. split; [done|]. by intros job ?%elem_of_nil.
  - intros H. apply bind_Ok in H as (m & Hm & H).
    apply bind_Ok in H as (kept & Hkept & [= <-]).
    destruct (IH _ Hkept) as [Hsub Hall]. destruct m.
    + split; [by apply sublist_skip|].
      intros job' [->|Hin]%elem_of_cons; [done|by apply Hall].
    + split; [by apply sublist_cons|done].
Qed.

Lemma apply_filters_sound (filters : list (string * value)) (l out : list dict) :
  apply_filters filters l = Ok out ->
  sublist out l /\
  forall job key v,
    job ∈ out -> (key, v) ∈ filters -> truthy v = true ->
    _matches_filter job key v = Ok true.
Proof.
  revert l out. induction filters as [|[key v] rest IH]; intros l out; simpl.
  - intros [= <-]. split; [done|]. by intros ??? _ ?%elem_of_nil.
  - destruct (truthy v) eqn:Hv.
    + intros H. apply bind_Ok in H as (l' & Hl' & H).
      destruct (keep_matching_sound _ _ _ _ Hl') as [Hsub' Hhead].
      destruct (IH _ _ H) as [Hsub Hrest]. split; [by etrans|].
      intros job key' v' Hjob [[= -> ->]|Hin]%elem_of_cons Hv'.
      * apply Hhead. by eapply elem_of_sublist.
      * by apply Hrest.
    + intros H. destruct (IH _ _ H) as [Hsub Hrest]. split; [done|].
      intros job key' v' Hjob [[= -> ->]|Hin]%elem_of_cons Hv'; [congruence|].
      by apply Hrest.
Qed.

Lemma lower_empty (s : string) : lower s = "" -> s = "".
Proof. by destruct s. Qed.

Lemma is_substring_of_empty (s : string) : is_substring s "" = true -> s = "".
Proof. destruct s; [done|]. simpl. discriminate. Qed.

End FetcherFilterFacts.

(** X1: with filters whose values are all texts, [JobFetcher.filter_jobs]
    never raises and returns exactly the listings that pass every filter
    with a non-empty text, in their order in [self.jobs]; a listing passes
    a filter when its field is a text that contains the filter's text,
    case ignored.  A filter with the empty text is skipped. *)
Theorem fetcher_filter_jobs_text (self : fetcher) (filters : list (string * string)) :
  filter_jobs self (text_filters filters)
  = Ok (List.filter (passes_text_filters filters) (jobs self)).
Proof. apply apply_filters_text. Qed.

(** X2: whatever the filters, when [JobFetcher.filter_jobs] returns, the
    result is a subsequence of [self.jobs] and each listing in it matches
    every filter whose value is truthy. *)
Theorem fetcher_filter_jobs_sound
    (self : fetcher) (filters : list (string * value)) (out : list dict) :
  filter_jobs self filters = Ok out ->
  sublist out (jobs self) /\
  forall job key v,
    job ∈ out -> (key, v) ∈ filters -> truthy v = true ->
    _matches_filter job key v = Ok true.
Proof. apply apply_filters_sound. Qed.

Lemma fetcher_filter_jobs_sound_witness :
  sublist [listing "Data Scientist" "Tech Corp" "Remote"]
    (jobs (holding repeated_listings)).
Proof.
  apply (fetcher_filter_jobs_sound (holding repeated_listings)
           [("title", VStr "data"); ("company", VNone)]
           [listing "Data Scientist" "Tech Corp" "Remote"]).
  vm_compute. reflexivity.
Defined.

(** X3: a listing that [JobFetcher.filter_jobs] returns has every field
    that a non-empty text filter names, as a text that contains the
    filter's text, case ignored; a listing that lacks the field, or holds
    something other than a text there, is dropped. *)
Theorem fetcher_filter_jobs_needs_field
    (self : fetcher) (filters : list (string * value)) (out : list dict)
    (job : dict) (key wanted : string) :
  filter_jobs self filters = Ok out ->
  job ∈ out -> (key, VStr wanted) ∈ filters -> wanted <> "" ->
  exists s, job !! key = Some (VStr s) /\
            is_substring (lower wanted) (lower s) = true.
Proof.
  intros Hrun Hjob Hfilter Hwanted.
  destruct (apply_filters_sound _ _ _ Hrun) as [_ Hall].
  assert (truthy (VStr wanted) = true) as Htruthy.
  { simpl. apply negb_true_iff, String.eqb_neq. done. }
  specialize (Hall job key (VStr wanted) Hjob Hfilter Htruthy).
  rewrite matches_filter_text in Hall. injection Hall as Hall.
  unfold matches_text, get in Hall.
  destruct (job !! key) as [[| | |s| |]|]; try done.
  - by exists s.
  - apply is_substring_of_empty, lower_empty in Hall. done.
Qed.

Lemma fetcher_filter_jobs_needs_field_witness :
  exists s, listing "Data Scientist" "Tech Corp" "Remote" !! "title" = Some (VStr s) /\
            is_substring (lower "data") (lower s) = true.
Proof.
  apply (fetcher_filter_jobs_needs_field (holding repeated_listings)
           [("title", VStr "data"); ("company", VNone)]
           [listing "Data Scientist" "Tech Corp" "Remote"]).
  - vm_compute. reflexivity.
  - by left.
  - by left.
  - discriminate.
Defined.

(** ** Statistics *)

Section CountFacts.

Implicit Types (counts : list (hkey * nat)) (key : hkey).

Lemma count_of_bump_eq key counts :
  count_of key (bump key counts) = S (count_of key counts).
Proof.
  induction counts as [|[k n] rest IH]; simpl.
  - by rewrite decide_True.
  - destruct (decide (k = key)) as [->|Hne]; simpl.
    + by rewrite decide_True.
    + by rewrite decide_False.
Qed.

Lemma count_of_bump_ne key key' counts :
  key <> key' -> count_of key' (bump key counts) = count_of key' counts.
Proof.
  intros Hne. induction counts as [|[k n] rest IH]; simpl.
  - by rewrite decide_False.
  - destruct (decide (k = key)) as [->|Hk]; simpl.
    + by rewrite !decide_False.
    + destruct (decide (k = key')); done.
Qed.

Lemma keys_bump key counts :
  fst <$> bump key counts =
  if bool_decide (key ∈ fst <$> counts) then fst <$> counts
  else (fst <$> counts) ++ [key].
Proof.
  induction counts as [|[k n] rest IH]; csimpl; [done|].
  destruct (decide (k = key)) as [->|Hne]; csimpl.
  - rewrite bool_decide_true; [done|by left].
  - rewrite IH. destruct (bool_decide (key ∈ fst <$> rest)) eqn:Hin.
    + apply bool_decide_eq_true in Hin.
      rewrite bool_decide_true; [done|by right].
    + apply bool_decide_eq_false in Hin.
      rewrite bool_decide_false; [done|].
      intros [?|?]%elem_of_cons; congruence.
Qed.

Lemma NoDup_keys_bump key counts :
  NoDup (fst <$> counts) -> NoDup (fst <$> bump key counts).
Proof.
  intros Hnd. rewrite keys_bump. case_bool_decide; [done|].
  apply NoDup_app. split_and!; [done| |apply NoDup_singleton].
  intros k Hk ->%list_elem_of_singleton. done.
Qed.

Lemma sum_bump key counts :
  sum_list (snd <$> bump key counts) = S (sum_list (snd <$> counts)).
Proof.
  induction counts as [|[k n] rest IH]; csimpl; [done|].
  destruct (decide (k = key)); csimpl; [done|]. rewrite IH. lia.
Qed.

Lemma positive_bump key counts :
  Forall (fun kn => (0 < snd kn)%nat) counts ->
  Forall (fun kn => (0 < snd kn)%nat) (bump key counts).
Proof.
  induction 1 as [|[k n] rest Hn Hrest IH]; csimpl.
  - repeat constructor.
  - destruct (decide (k = key)); constructor; csimpl in *; try done. lia.
Qed.

Lemma count_of_elem key n counts :
  NoDup (fst <$> counts) -> (key, n) ∈ counts -> count_of key counts = n.
Proof.
  induction counts as [|[k m] rest IH]; simpl.
  - by intros _ ?%elem_of_nil.
  - intros [Hk Hnd]%NoDup_cons [[= -> ->]|Hin]%elem_of_cons.
    + by rewrite decide_True.
    + rewrite decide_False; [by apply IH|].
      intros ->. apply Hk. apply list_elem_of_fmap. by exists (key, n).
Qed.

Lemma count_of_positive key counts :
  (0 < count_of key counts)%nat -> (key, count_of key counts) ∈ counts.
Proof.
  induction counts as [|[k m] rest IH]; simpl; [lia|].
  destruct (decide (k = key)) as [->|Hne]; [by left|].
  intros H. right. by apply IH.
Qed.

Lemma occurrences_cons field key (job : dict) (l : list dict) :
  occurrences field key (job :: l)
  = ((if has_value field key job then 1 else 0) + occurrences field key l)%nat.
Proof.
  unfold occurrences. simpl. by destruct (has_value field key job).
Qed.

(** What the loop adds to the counts it starts from. *)
Lemma count_from_spec field counts (todo : list dict) out :
  count_from field counts todo = Ok out ->
  (NoDup (fst <$> counts) -> NoDup (fst <$> out)) /\
  (Forall (fun kn => (0 < snd kn)%nat) counts ->
   Forall (fun kn => (0 < snd kn)%nat) out) /\
  sum_list (snd <$> out) = (sum_list (snd <$> counts) + length todo)%nat /\
  forall key,
    count_of key out = (count_of key counts + occurrences field key todo)%nat.
Proof.
  revert counts out. induction todo as [|job rest IH]; intros counts out; simpl.
  - intros [= <-]. by split_and!.
  - intros H. apply bind_Ok in H as (k & Hk & H).
    destruct (IH _ _ H) as (Hnd & Hpos & Hsum & Hcount).
    split_and!.
    + intros ?. by apply Hnd, NoDup_keys_bump.
    + intros ?. by apply Hpos, positive_bump.
    + rewrite Hsum, sum_bump. lia.
    + intros key. rewrite Hcount, occurrences_cons.
      unfold has_value. rewrite Hk.
      destruct (decide (k = key)) as [->|Hne].
      * rewrite count_of_bump_eq, bool_decide_true by done. lia.
      * rewrite count_of_bump_ne, bool_decide_false by done. lia.
Qed.

End CountFacts.

(** X4: when [_count_by_field] returns, every value has one entry, the
    count of an entry is the number of listings that hold that value in the
    field (a listing without the field counts under "unknown"), no entry
    has count zero, and every listing is counted under its value. *)
Theorem count_by_field_counts
    (self : fetcher) (field : string) (counts : list (hkey * nat)) :
  _count_by_field self field = Ok counts ->
  NoDup (fst <$> counts) /\
  (forall key n,
     (key, n) ∈ counts ->
     n = occurrences field key (jobs self) /\ (0 < n)%nat) /\
  (forall job,
     job ∈ jobs self ->
     exists key,
       hash_key (get job field (VStr "unknown")) = Ok key /\
       (key, occurrences field key (jobs self)) ∈ counts).
Proof.
  intros Hrun. unfold _count_by_field in Hrun.
  destruct (count_from_spec _ _ _ _ Hrun) as (Hnd & Hpos & _ & Hcount).
  specialize (Hnd (NoDup_nil_2)). specialize (Hpos (Forall_nil_2 _)).
  split_and!; [done| |].
  - intros key n Hin. split.
    + rewrite <- (count_of_elem _ _ _ Hnd Hin). by rewrite Hcount.
    + rewrite Forall_forall in Hpos. apply (Hpos _ Hin).
  - intros job Hjob.
    assert (exists key, hash_key (get job field (VStr "unknown")) = Ok key)
      as [key Hkey].
    { clear -Hrun Hjob. revert Hrun. generalize (@nil (hkey * nat)).
      induction (jobs self) as [|j rest IH]; intros acc Hrun;
        [by apply elem_of_nil in Hjob|].
      simpl in Hrun. apply bind_Ok in Hrun as (k & Hk & Hrun).
      apply elem_of_cons in Hjob as [->|Hjob]; [by exists k|].
      by apply (IH Hjob _ Hrun). }
    exists key. split; [done|].
    specialize (Hcount key). simpl in Hcount. rewrite <- Hcount.
    apply count_of_positive. rewrite Hcount.
    unfold occurrences.
    assert (job ∈ List.filter (has_value field key) (jobs self)) as Hin.
    { apply list_elem_of_In, List.filter_In. split; [by apply list_elem_of_In|].
      unfold has_value. rewrite Hkey. by apply bool_decide_eq_true. }
    destruct (List.filter (has_value field key) (jobs self));
      [by apply elem_of_nil in Hin | simpl; lia].
Qed.

Lemma count_by_field_counts_witness :
  NoDup (fst <$> [(KStr "ML Engineer", 2%nat); (KStr "Data Scientist", 1%nat)]).
Proof.
  apply (count_by_field_counts (holding repeated_listings) "title").
  vm_compute. reflexivity.
Defined.

(** X5: when [get_job_stats] returns, [total_jobs] is the number of
    listings held, and the counts of each of the four breakdowns (sources,
    companies, locations, job types) add up to [total_jobs]. *)
Theorem get_job_stats_totals (self : fetcher) (stats : job_stats) :
  get_job_stats self = Ok stats ->
  total_jobs stats = length (jobs self) /\
  sum_list (snd <$> stats_sources stats) = total_jobs stats /\
  sum_list (snd <$> stats_companies stats) = total_jobs stats /\
  sum_list (snd <$> stats_locations stats) = total_jobs stats /\
  sum_list (snd <$> stats_job_types stats) = total_jobs stats.
Proof.
  intros H. unfold get_job_stats in H.
  apply bind_Ok in H as (c1 & H1 & H). apply bind_Ok in H as (c2 & H2 & H).
  apply bind_Ok in H as (c3 & H3 & H). apply bind_Ok in H as (c4 & H4 & H).
  injection H as <-. simpl.
  destruct (count_from_spec _ _ _ _ H1) as (_ & _ & S1 & _).
  destruct (count_from_spec _ _ _ _ H2) as (_ & _ & S2 & _).
  destruct (count_from_spec _ _ _ _ H3) as (_ & _ & S3 & _).
  destruct (count_from_spec _ _ _ _ H4) as (_ & _ & S4 & _).
  by rewrite S1, S2, S3, S4.
Qed.

Lemma get_job_stats_totals_witness :
  exists stats,
    get_job_stats (holding repeated_listings) = Ok stats /\
    total_jobs stats = 3%nat /\
    sum_list (snd <$> stats_companies stats) = total_jobs stats.
Proof.
  eexists. split; [vm_compute; reflexivity|].
  split; [reflexivity|].
  eapply (get_job_stats_totals (holding repeated_listings)).
  vm_compute. reflexivity.
Defined.

(** X6: [get_job_stats] and [_count_by_field] return for every fetcher
    whose listings hold hashable values in the counted fields; a listing
    that holds a list there makes them raise [TypeError]. *)
Theorem count_by_field_total (self : fetcher) (field : string) :
  (Forall (fun job => exists key,
             hash_key (get job field (VStr "unknown")) = Ok key) (jobs self) ->
   exists counts, _count_by_field self field = Ok counts) /\
  (forall job items,
     job ∈ jobs self -> job !! field = Some (VList items) ->
     _count_by_field self field = Raise TypeError).
Proof.
  unfold _count_by_field. generalize (@nil (hkey * nat)). split.
  - intros Hall. revert l.
    induction Hall as [|job rest [key Hkey] _ IH]; intros acc; simpl;
      [by eexists|].
    rewrite Hkey. simpl. apply IH.
  - intros job items Hjob Hfield. revert l.
    induction (jobs self) as [|j rest IH]; intros acc;
      [by apply elem_of_nil in Hjob|].
    simpl. apply elem_of_cons in Hjob as [<-|Hjob].
    + unfold get. by rewrite Hfield.
    + destruct (hash_key (get j field (VStr "unknown"))) as [k|e] eqn:Hk; simpl.
      * by apply IH.
      * revert Hk. destruct (get j field (VStr "unknown")); simpl; congruence.
Qed.

Lemma count_by_field_total_witness :
  exists counts, _count_by_field (holding repeated_listings) "title" = Ok counts.
Proof.
  apply (count_by_field_total (holding repeated_listings) "title").
  repeat constructor; by eexists.
Defined.

(** ** More on the retry loop and the run *)

Lemma parse_job_listing_dom (now : string) (raw : dict) :
  dom (parse_job_listing now raw) = list_to_set listing_keys.
Proof.
  unfold parse_job_listing. by rewrite !dom_insert_L, dom_empty_L.
Qed.

Section RetryFacts.

Variable net : string -> string -> string -> nat -> outcome.
Variable utcnow : string -> nat -> string.

Lemma attempts_recover self url keywords location source data
    (k attempt fuel : nat) :
  session self = Open ->
  (k < fuel)%nat ->
  (forall i, (i < k)%nat ->
     exists d, net url keywords location (attempt + i) = Response 429 d) ->
  net url keywords location (attempt + k) = Response 200 data ->
  attempts net self url keywords location source attempt fuel
  = (rate_limited_prefix (Get url keywords location) attempt k
       ++ [Get url keywords location],
     match _extract_jobs_from_response data source with
     | Ok found => found
     | Raise _ => JRecords []
     end).
Proof.
  intros Hopen. revert attempt fuel.
  induction k as [|k IH]; intros attempt fuel Hk Hlimited Hok.
  - destruct fuel as [|fuel]; [lia|]. cbn [attempts]. rewrite Hopen.
    rewrite Nat.add_0_r in Hok. rewrite Hok. simpl.
    by destruct (_extract_jobs_from_response data source).
  - destruct fuel as [|fuel]; [lia|]. cbn [attempts]. rewrite Hopen.
    destruct (Hlimited 0%nat) as [d Hd]; [lia|].
    rewrite Nat.add_0_r in Hd. rewrite Hd. simpl.
    rewrite (IH (S attempt) fuel); [done|lia| |].
    + intros i Hi. destruct (Hlimited (S i)) as [d' Hd']; [lia|].
      exists d'. by rewrite <- Hd', Nat.add_succ_r.
    + by rewrite <- Hok, Nat.add_succ_r.
Qed.

Lemma attempts_slept self url keywords location source (attempt fuel : nat) :
  (slept (fst (attempts net self url keywords location source attempt fuel))
   <= backoff_budget attempt fuel)%nat.
Proof.
  revert attempt. induction fuel as [|fuel IH]; intros attempt; [done|].
  cbn [attempts backoff_budget]. specialize (IH (S attempt)).
  destruct (attempts net self url keywords location source (S attempt) fuel)
    as [events found].
  unfold slept, retry_delay in *.
  destruct (session self); simpl in *; try lia.
  destruct (net url keywords location attempt) as [status data| |].
  - destruct (Z.eqb status 200).
    + destruct (_extract_jobs_from_response data source); simpl; lia.
    + destruct (Z.eqb status 429); simpl in *; lia.
  - destruct (Nat.ltb attempt _); simpl in *; lia.
  - simpl. lia.
Qed.

Lemma task_is_fetch_source self keywords location source events r :
  task net utcnow self keywords location source = Some (events, r) ->
  exists url,
    fetch_source net utcnow self url keywords location source = (events, r).
Proof.
  unfold task.
  destruct (String.eqb source "linkedin") eqn:H1;
    [apply String.eqb_eq in H1 as ->; intros [= H]; by eexists|].
  destruct (String.eqb source "indeed") eqn:H2;
    [apply String.eqb_eq in H2 as ->; intros [= H]; by eexists|].
  destruct (String.eqb source "glassdoor") eqn:H3;
    [apply String.eqb_eq in H3 as ->; intros [= H]; by eexists|done].
Qed.

Lemma task_known self keywords location source :
  is_Some (task net utcnow self keywords location source)
  <-> known_source source = true.
Proof.
  unfold task, known_source.
  destruct (String.eqb source "linkedin"), (String.eqb source "indeed"),
    (String.eqb source "glassdoor"); simpl; split; try done;
    by intros [? ?].
Qed.

Lemma omap_task_known self keywords location (l : list string) :
  omap (task net utcnow self keywords location) l
  = omap (task net utcnow self keywords location) (List.filter known_source l).
Proof.
  induction l as [|source rest IH]; [done|]. simpl.
  pose proof (task_known self keywords location source) as Hknown.
  destruct (known_source source) eqn:Hk; simpl.
  - destruct (task net utcnow self keywords location source); [f_equal|]; exact IH.
  - destruct (task net utcnow self keywords location source) eqn:Ht; [|exact IH].
    assert (is_Some (Some p)) as Hs by eauto.
    apply Hknown in Hs. congruence.
Qed.

Lemma length_omap_task self keywords location (l : list string) :
  length (omap (task net utcnow self keywords location) l)
  = length (List.filter known_source l).
Proof.
  induction l as [|source rest IH]; [done|]. simpl.
  pose proof (task_known self keywords location source) as Hknown.
  destruct (known_source source) eqn:Hk.
  - destruct (proj2 Hknown eq_refl) as [t ->]. simpl. f_equal. exact IH.
  - destruct (task net utcnow self keywords location source) eqn:Ht; [|exact IH].
    assert (is_Some (Some p)) as Hs by eauto.
    apply Hknown in Hs. congruence.
Qed.

Lemma tasks_known_only self keywords location :
  tasks net utcnow self keywords location
  = tasks net utcnow (with_sources self (List.filter known_source (sources self)))
      keywords location.
Proof.
  unfold tasks. simpl.
  exact (omap_task_known self keywords location (sources self)).
Qed.

Lemma gather_jobs_inv (results : list (result (list dict))) (job : dict) :
  job ∈ gather_jobs results ->
  exists found, Ok found ∈ results /\ job ∈ found.
Proof.
  induction results as [|r results IH]; simpl; [by intros ?%elem_of_nil|].
  destruct r as [found|e].
  - intros [Hin|Hin]%elem_of_app.
    + exists found. split; [by left|done].
    + destruct (IH Hin) as (found' & ? & ?). exists found'. split; [by right|done].
  - intros Hin. destruct (IH Hin) as (found' & ? & ?).
    exists found'. split; [by right|done].
Qed.

End RetryFacts.

(** X7: a source whose every request fails with a network error
    ([aiohttp.ClientError]) is requested three times, with a sleep of the
    fixed [retry_delay] after the first and the second failure and none
    after the third, and the request returns the empty list. *)
Theorem network_errors_fixed_delay net (self : fetcher)
    (url keywords location source : string) :
  session self = Open ->
  (forall attempt, net url keywords location attempt = ClientError) ->
  _make_api_request net self url keywords location source
  = ([Get url keywords location; Sleep retry_delay;
      Get url keywords location; Sleep retry_delay;
      Get url keywords location], JRecords []).
Proof.
  intros Hopen Herr. unfold _make_api_request, max_retries. simpl.
  by rewrite Hopen, !Herr.
Qed.

Lemma network_errors_fixed_delay_witness :
  _make_api_request (fun _ _ _ _ => ClientError) (with_session (new None) Open)
    linkedin_url "ML Engineer" "Remote" "linkedin"
  = ([Get linkedin_url "ML Engineer" "Remote"; Sleep 1;
      Get linkedin_url "ML Engineer" "Remote"; Sleep 1;
      Get linkedin_url "ML Engineer" "Remote"], JRecords []).
Proof.
  apply (network_errors_fixed_delay (fun _ _ _ _ => ClientError)); reflexivity.
Defined.

(** X8: a source that answers 429 to its first [k] requests, [k] less
    than [max_retries], and 200 to the next one is requested [k + 1]
    times, with the linear backoff sleeps in between, and the request
    returns what [_extract_jobs_from_response] finds in that answer, or
    the empty list when the extraction raises. *)
Theorem rate_limit_then_success net (self : fetcher)
    (url keywords location source : string) (data : json) (k : nat) :
  session self = Open ->
  (k < max_retries)%nat ->
  (forall i, (i < k)%nat ->
     exists d, net url keywords location i = Response 429 d) ->
  net url keywords location k = Response 200 data ->
  _make_api_request net self url keywords location source
  = (rate_limited_prefix (Get url keywords location) 0 k
       ++ [Get url keywords location],
     match _extract_jobs_from_response data source with
     | Ok found => found
     | Raise _ => JRecords []
     end).
Proof.
  intros Hopen Hk Hlimited Hok.
  by apply (attempts_recover net self url keywords location source data k 0).
Qed.

Lemma rate_limit_then_success_witness :
  _make_api_request
    (fun _ _ _ attempt =>
       if (attempt <? 2)%nat then Response 429 JOther
       else Response 200 (JObject [("results", JRecords [paid_job])]))
    (with_session (new None) Open) indeed_url "ML Engineer" "Remote" "indeed"
  = ([Get indeed_url "ML Engineer" "Remote"; Sleep 1;
      Get indeed_url "ML Engineer" "Remote"; Sleep 2;
      Get indeed_url "ML Engineer" "Remote"], JRecords [paid_job]).
Proof.
  apply (rate_limit_then_success
           (fun _ _ _ attempt =>
              if (attempt <? 2)%nat then Response 429 JOther
              else Response 200 (JObject [("results", JRecords [paid_job])]))
           (with_session (new None) Open) indeed_url "ML Engineer" "Remote"
           "indeed" (JObject [("results", JRecords [paid_job])]) 2).
  - reflexivity.
  - unfold max_retries. lia.
  - intros i Hi. exists JOther.
    destruct i as [|[|i]]; [reflexivity..|lia].
  - reflexivity.
Defined.

(** X9: an answer with a status other than 200 and 429, and an exception
    that is not a network error, are not retried: after that one request
    the loop returns the empty list without sleeping. *)
Theorem other_failures_not_retried net (self : fetcher)
    (url keywords location source : string) :
  session self = Open ->
  match net url keywords location 0%nat with
  | Response status _ => status <> 200 /\ status <> 429
  | OtherError => True
  | ClientError => False
  end ->
  _make_api_request net self url keywords location source
  = ([Get url keywords location], JRecords []).
Proof.
  intros Hopen Hfirst. unfold _make_api_request, max_retries.
  cbn [attempts]. rewrite Hopen.
  destruct (net url keywords location 0%nat) as [status data| |]; [|done|done].
  destruct Hfirst as [H200 H429].
  apply Z.eqb_neq in H200, H429. by rewrite H200, H429.
Qed.

Lemma other_failures_not_retried_witness :
  _make_api_request (fun _ _ _ _ => Response 500 JOther)
    (with_session (new None) Open) linkedin_url "ML Engineer" "Remote" "linkedin"
  = ([Get linkedin_url "ML Engineer" "Remote"], JRecords []).
Proof.
  apply (other_failures_not_retried (fun _ _ _ _ => Response 500 JOther));
    [reflexivity|].
  split; discriminate.
Defined.

(** X10: whatever the sources answer, no task of a run sleeps more than
    six seconds in all: the backoff is at most 1 + 2 + 3 times the base
    delay of one second. *)
Theorem run_sleeps_at_most_six_seconds net utcnow (self : fetcher)
    (keywords location : string) :
  Forall (fun events => (slept events <= 6)%nat)
    (snd (fetch_jobs net utcnow self keywords location)).
Proof.
  assert (forall self',
            Forall (fun events => (slept events <= 6)%nat)
              (fst <$> tasks net utcnow self' keywords location)) as Htasks.
  { intros self'. apply Forall_fmap, Forall_forall.
    intros [events r] (source & _ & Htask)%list_elem_of_omap.
    apply task_is_fetch_source in Htask as [url Hfetch].
    unfold fetch_source, _make_api_request in Hfetch.
    pose proof (attempts_slept net self' url keywords location source 0
                  max_retries) as Hslept.
    destruct (attempts net self' url keywords location source 0 max_retries).
    injection Hfetch as <- _. exact Hslept. }
  unfold fetch_jobs. destruct (session self); simpl; apply Htasks.
Qed.

(** X11: called on a fetcher that has no session, [_fetch_all_sources]
    makes no request and returns no listing, whatever its sources: the
    "Session not initialized" error of each task is caught in the task. *)
Theorem no_session_no_request net utcnow (self : fetcher)
    (keywords location : string) :
  session self = NoSession ->
  fst (fst (_fetch_all_sources net utcnow self keywords location)) = [] /\
  Forall (fun events => events = [])
    (snd (_fetch_all_sources net utcnow self keywords location)).
Proof.
  intros Hnone. unfold _fetch_all_sources. simpl.
  assert (Forall (fun t => t = ([], Ok []))
            (tasks net utcnow self keywords location)) as Htasks.
  { apply Forall_forall. intros [events r] (source & _ & Htask)%list_elem_of_omap.
    apply task_is_fetch_source in Htask as [url Hfetch].
    unfold fetch_source, _make_api_request, max_retries in Hfetch.
    cbn [attempts] in Hfetch. rewrite Hnone in Hfetch. by injection Hfetch as <- <-. }
  induction Htasks as [|t rest -> _ [IHjobs IHlog]]; [done|].
  simpl. split; [done|]. by constructor.
Qed.

Lemma no_session_no_request_witness :
  fst (fst (_fetch_all_sources linkedin_limited noon (new None)
              "ML Engineer" "Remote")) = [].
Proof.
  apply (no_session_no_request linkedin_limited noon (new None)). reflexivity.
Defined.

(** X12: source names other than "linkedin", "indeed" and "glassdoor"
    are skipped: a run returns the same listings and makes the same
    requests as the run of a fetcher that lists only its known sources,
    one task per known source. *)
Theorem unknown_sources_skipped net utcnow (self : fetcher)
    (keywords location : string) :
  fst (fst (fetch_jobs net utcnow self keywords location))
  = fst (fst (fetch_jobs net utcnow
                (with_sources self (List.filter known_source (sources self)))
                keywords location)) /\
  snd (fetch_jobs net utcnow self keywords location)
  = snd (fetch_jobs net utcnow
           (with_sources self (List.filter known_source (sources self)))
           keywords location) /\
  length (snd (fetch_jobs net utcnow self keywords location))
  = length (List.filter known_source (sources self)).
Proof.
  assert (forall self',
            length (tasks net utcnow self' keywords location)
            = length (List.filter known_source (sources self'))) as Hlen.
  { intros self'. apply length_omap_task. }
  unfold fetch_jobs, _fetch_all_sources. simpl.
  destruct (session self) eqn:Hs; simpl.
  - rewrite (tasks_known_only net utcnow (with_session self Open)).
    split_and!; try done.
    rewrite length_fmap, <- (tasks_known_only net utcnow (with_session self Open)).
    apply (Hlen (with_session self Open)).
  - rewrite (tasks_known_only net utcnow self).
    split_and!; try done.
    rewrite length_fmap, <- (tasks_known_only net utcnow self). apply Hlen.
  - rewrite (tasks_known_only net utcnow self).
    split_and!; try done.
    rewrite length_fmap, <- (tasks_known_only net utcnow self). apply Hlen.
Qed.

(** X13: every listing that a run returns is a normalised one: it has
    exactly the ten keys that [parse_job_listing] writes. *)
Theorem fetched_listings_are_normalised net utcnow (self : fetcher)
    (keywords location : string) (job : dict) :
  job ∈ fst (fst (fetch_jobs net utcnow self keywords location)) ->
  dom job = list_to_set listing_keys.
Proof.
  assert (forall self',
            job ∈ gather_jobs (snd <$> tasks net utcnow self' keywords location) ->
            dom job = list_to_set listing_keys) as Htasks.
  { intros self' (found & Hfound & Hjob)%gather_jobs_inv.
    apply list_elem_of_fmap in Hfound as ([events r] & Hr & Htask).
    simpl in Hr. subst r.
    apply list_elem_of_omap in Htask as (source & _ & Htask).
    apply task_is_fetch_source in Htask as [url Hfetch].
    unfold fetch_source in Hfetch.
    destruct (_make_api_request net self' url keywords location source)
      as [events' payload].
    injection Hfetch as _ Hparse. unfold parse_all in Hparse.
    destruct payload as [records|[|]|]; try done.
    - injection Hparse as <-.
      apply elem_of_lookup_imap in Hjob as (i & raw & -> & _).
      apply parse_job_listing_dom.
    - injection Hparse as <-. by apply elem_of_nil in Hjob. }
  unfold fetch_jobs, _fetch_all_sources.
  destruct (session self); simpl; apply Htasks.
Qed.

Lemma fetched_listings_are_normalised_witness :
  dom (parse_job_listing "2026-01-01T12:00:00"
         (listing "ML Engineer" "Tech Corp" "Remote"))
  = list_to_set listing_keys.
Proof.
  apply (fetched_listings_are_normalised linkedin_limited noon (new None)
           "ML Engineer" "Remote").
  vm_compute. by left.
Defined.

(** ** More on normalisation and scoring *)

Lemma parse_job_listing_get (now : string) (raw : dict) (k : string) (dflt : value) :
  k ∈ copied_keys ++ ["source"] ->
  get (parse_job_listing now raw) k dflt
  = get raw k (if String.eqb k "source" then VStr "unknown" else VStr "").
Proof.
  intros Hk. unfold get at 1, parse_job_listing.
  repeat (apply elem_of_cons in Hk as [->|Hk]; [by simplify_map_eq|]).
  by apply elem_of_nil in Hk.
Qed.

(** X14: normalising a normalised listing changes nothing but the time
    stamp: [parse_job_listing] applied to its own result gives what it
    gives on the raw record at the later time. *)
Theorem parse_job_listing_idempotent (now later : string) (raw : dict) :
  parse_job_listing later (parse_job_listing now raw)
  = parse_job_listing later raw.
Proof.
  unfold parse_job_listing at 1.
  rewrite !parse_job_listing_get
    by (unfold copied_keys; simpl; rewrite !elem_of_cons; tauto).
  reflexivity.
Qed.

(** X15: [parse_job_listing] reads nine keys of the raw record and no
    other: whatever the raw record holds under another key (skills,
    is_remote, experience_years, fetched_at, ...) does not reach the
    listing. *)
Theorem parse_job_listing_ignores_other_keys
    (now : string) (raw : dict) (k : string) (v : value) :
  k ∉ copied_keys ++ ["source"] ->
  parse_job_listing now (<[k := v]> raw) = parse_job_listing now raw.
Proof.
  intros Hk. unfold parse_job_listing, get.
  assert (forall k', k' ∈ copied_keys ++ ["source"] ->
                     <[k := v]> raw !! k' = raw !! k') as Hother.
  { intros k' Hk'. apply lookup_insert_ne. congruence. }
  rewrite !Hother
    by (unfold copied_keys; simpl; rewrite !elem_of_cons; tauto).
  reflexivity.
Qed.

Lemma parse_job_listing_ignores_other_keys_witness :
  parse_job_listing "2026-01-01T12:00:00"
    (<["skills" := VList [VStr "python"]]> (listing "ML Engineer" "Tech Corp" "Remote"))
  = parse_job_listing "2026-01-01T12:00:00"
      (listing "ML Engineer" "Tech Corp" "Remote").
Proof.
  apply (parse_job_listing_ignores_other_keys "2026-01-01T12:00:00"
           (listing "ML Engineer" "Tech Corp" "Remote") "skills"
           (VList [VStr "python"])).
  unfold copied_keys. simpl. rewrite !elem_of_cons, elem_of_nil.
  intros H. repeat destruct H as [H|H]; discriminate || done.
Defined.

Section ScoreBounds.

Import JobRanker.

Lemma size_list_to_set_le (l : list string) :
  (size (list_to_set l : gset string) <= length l)%nat.
Proof.
  induction l as [|x l IH].
  - rewrite list_to_set_nil, size_empty. done.
  - rewrite list_to_set_cons, size_union_alt, size_singleton. cbn [length].
    assert (size (list_to_set l ∖ {[x]} : gset string)
            <= size (list_to_set l : gset string))%nat.
    { apply subseteq_size. by intros y [? _]%elem_of_difference. }
    lia.
Qed.

Lemma common_size_le (js us : list string) :
  (size ((list_to_set js : gset string) ∩ list_to_set us)
   <= Nat.min (length js) (length us))%nat.
Proof.
  apply Nat.min_glb.
  - etrans; [|apply size_list_to_set_le].
    apply subseteq_size. by intros y [? _]%elem_of_intersection.
  - etrans; [|apply size_list_to_set_le].
    apply subseteq_size. by intros y [_ ?]%elem_of_intersection.
Qed.

Lemma inject_nat_le (n m : nat) :
  (n <= m)%nat -> (inject_Z (Z.of_nat n) <= inject_Z (Z.of_nat m))%Q.
Proof. intros H. rewrite <- Zle_Qle. lia. Qed.

Lemma inject_nat_nonneg (n : nat) : (0 <= inject_Z (Z.of_nat n))%Q.
Proof. change 0%Q with (inject_Z 0). rewrite <- Zle_Qle. lia. Qed.

(** The score as the sum of its five parts. *)
Lemma compute_score_parts (profile job : dict) (score : Q) :
  _compute_score profile job = Ok score ->
  exists js us (a b c d : bool),
    lowered (get job "skills" (VList [])) = Ok js /\
    lowered (get profile "skills" (VList [])) = Ok us /\
    (d = true -> truthy (get job "experience_years" VNone) = true) /\
    (score ==
     inject_Z (Z.of_nat (size ((list_to_set js : gset string) ∩ list_to_set us))) * 5
     + Design.bonus a 10 + Design.bonus b (15 # 2) + Design.bonus c 8
     + Design.bonus d 3)%Q.
Proof.
  unfold _compute_score. intros H.
  apply bind_Ok in H as (js & Hjs & H). apply bind_Ok in H as (us & Hus & H).
  apply bind_Ok in H as (plocs & Hplocs & H).
  apply bind_Ok in H as (jloc & Hjloc & H).
  apply bind_Ok in H as (b & Hb & H). apply bind_Ok in H as (d & Hd & H).
  injection H as <-.
  exists js, us,
    (existsb (fun loc => is_substring loc jloc) plocs), b,
    (truthy (get profile "remote_only" (VBool false))
     && (truthy (get job "is_remote" (VBool false))
         || is_substring "remote" jloc)), d.
  split_and!; [done|done| |].
  - intros ->.
    destruct (truthy (get job "experience_years" VNone)); [done|].
    simpl in Hd. discriminate.
  - unfold Design.bonus.
    repeat match goal with |- context [if ?x then _ else _] => destruct x end;
      ring.
Qed.

End ScoreBounds.

(** X16: a score is never negative, and it is at most 5 points for each
    skill of the shorter of the two skill lists plus 28.5 for the location,
    the salary, the remote preference and the experience. *)
Theorem compute_score_bounds (profile job : dict) (score : Q) :
  JobRanker._compute_score profile job = Ok score ->
  exists js us,
    JobRanker.lowered (get job "skills" (VList [])) = Ok js /\
    JobRanker.lowered (get profile "skills" (VList [])) = Ok us /\
    (0 <= score)%Q /\
    (score <= inject_Z (Z.of_nat (Nat.min (length js) (length us))) * 5 + (57 # 2))%Q.
Proof.
  intros (js & us & a & b & c & d & Hjs & Hus & _ & Hscore)%compute_score_parts.
  exists js, us. split_and!; [done|done| |].
  - rewrite Hscore.
    pose proof (inject_nat_nonneg
                  (size ((list_to_set js : gset string) ∩ list_to_set us))).
    unfold Design.bonus. destruct a, b, c, d; lra.
  - rewrite Hscore.
    pose proof (inject_nat_le _ _ (common_size_le js us)).
    unfold Design.bonus. destruct a, b, c, d; lra.
Qed.

Lemma compute_score_bounds_witness :
  exists js us,
    JobRanker.lowered (get ml_engineer "skills" (VList [])) = Ok js /\
    JobRanker.lowered (get alex "skills" (VList [])) = Ok us /\
    (0 <= 77 # 2)%Q /\
    (77 # 2 <= inject_Z (Z.of_nat (Nat.min (length js) (length us))) * 5 + (57 # 2))%Q.
Proof.
  apply (compute_score_bounds alex ml_engineer (77 # 2)).
  vm_compute. reflexivity.
Defined.

(** X17: a listing that comes from [parse_job_listing] never scores more
    than 25.5: the normaliser drops the raw record's skills and
    experience_years, so only the location, the salary and the remote
    preference (through the location text) can count. *)
Theorem parsed_listing_score_at_most (profile raw : dict) (now : string) (score : Q) :
  JobRanker._compute_score profile (parse_job_listing now raw) = Ok score ->
  (0 <= score)%Q /\ (score <= 51 # 2)%Q.
Proof.
  intros (js & us & a & b & c & d & Hjs & Hus & Hd & Hscore)%compute_score_parts.
  assert (js = []) as ->.
  { revert Hjs. unfold get, parse_job_listing. simplify_map_eq. by intros [= <-]. }
  assert (d = false) as ->.
  { destruct d; [|done]. specialize (Hd eq_refl). revert Hd.
    unfold get, parse_job_listing. by simplify_map_eq. }
  rewrite Hscore.
  rewrite list_to_set_nil, (left_absorb_L ∅ (∩)), size_empty.
  change (inject_Z (Z.of_nat 0)) with 0%Q. unfold Design.bonus.
  destruct a, b, c; split; lra.
Qed.

Lemma parsed_listing_score_at_most_witness :
  (0 <= 51 # 2)%Q /\ (51 # 2 <= 51 # 2)%Q.
Proof.
  apply (parsed_listing_score_at_most alex
           (<["salary" := VNum 120000]> (listing "ML Engineer" "Tech Corp" "Remote"))
           "2026-01-01T12:00:00" (51 # 2)).
  vm_compute. reflexivity.
Defined.

(** ** More on ranking *)

Section RankAgain.

Import JobRanker.

Variable profile : dict.

(** What a ranking that returned has done. *)
Lemma rank_jobs_inv (jobs ranked : list loc) (h h' : heap) :
  rank_jobs profile jobs h = (Ok ranked, h') ->
  (forall l, l ∈ jobs ->
     exists d score, h !! l = Some d /\ _compute_score profile d = Ok score) /\
  ranked = snd <$> sorted_desc ((fun l => (score_of profile h l, l)) <$> jobs) /\
  (forall l, l ∈ jobs ->
     exists d, h !! l = Some d /\
       h' !! l = Some (<["rank_score" := VNum (score_of profile h l)]> d)) /\
  frame jobs h h'.
Proof.
  intros Hrun.
  assert (exists h1, score_all profile jobs h = (Ok tt, h1)) as [h1 Hscore].
  { unfold rank_jobs, mbind, st_bind in Hrun.
    destruct (score_all profile jobs h) as [[[]|e] h1]; [|done]. by exists h1. }
  pose proof (score_all_inv profile jobs h h1 Hscore) as Hscored.
  destruct (rank_jobs_ok profile jobs h Hscored) as (h2 & Hrun' & Hstored).
  rewrite Hrun in Hrun'. injection Hrun' as -> <-.
  split_and!; try done.
  pose proof (score_all_frame profile jobs h) as Hframe.
  rewrite <- rank_jobs_heap, Hrun in Hframe. exact Hframe.
Qed.

Lemma sorted_desc_id (l : list (Q * loc)) :
  StronglySorted not_above l -> sorted_desc l = l.
Proof.
  induction 1 as [|x l Hl IH Hx]; [done|].
  change (sorted_desc (x :: l)) with (insert_desc x (sorted_desc l)).
  rewrite IH. destruct l as [|y l']; [done|]. simpl.
  apply Forall_cons in Hx as [Hxy _]. unfold not_above in Hxy.
  apply Qle_bool_iff in Hxy. by rewrite Hxy.
Qed.

Lemma rekey (score : loc -> Q) (l : list (Q * loc)) :
  keyed_by_score score l -> (fun j => (score j, j)) <$> (snd <$> l) = l.
Proof.
  induction 1 as [|[q j] l Hx _ IH]; [done|]. csimpl. simpl in Hx.
  by rewrite IH, <- Hx.
Qed.

Lemma ranked_once (jobs : list loc) (score : loc -> Q) :
  let sorted := sorted_desc ((fun l => (score l, l)) <$> jobs) in
  keyed_by_score score sorted /\ snd <$> sorted ≡ₚ jobs.
Proof.
  simpl. split.
  - unfold keyed_by_score. rewrite sorted_desc_perm. apply keyed_by_score_fmap.
  - rewrite sorted_desc_perm, <- list_fmap_compose. by rewrite list_fmap_id.
Qed.

End RankAgain.

(** X18: ranking is idempotent: when [rank_jobs] returns, a second call
    on the ranked list (same profile) returns the same list and leaves
    every listing as the first call left it. *)
Theorem rank_jobs_idempotent (profile : dict) (jobs ranked : list loc) (h h' : heap) :
  JobRanker.rank_jobs profile jobs h = (Ok ranked, h') ->
  JobRanker.rank_jobs profile ranked h' = (Ok ranked, h').
Proof.
  intros (Hscored & Hranked & Hstored & Hframe)%rank_jobs_inv.
  set (score := score_of profile h) in *.
  set (sorted := JobRanker.sorted_desc ((fun l => (score l, l)) <$> jobs)) in *.
  destruct (ranked_once jobs score) as [Hkeys Hperm]. fold sorted in Hkeys, Hperm.
  rewrite <- Hranked in Hperm.
  assert (forall l, l ∈ ranked -> score_of profile h' l = score l) as Hsame.
  { intros l Hl. rewrite Hperm in Hl.
    destruct (Hstored l Hl) as (d & Hd & Hl').
    unfold score, score_of. by rewrite Hl', Hd, compute_score_frame. }
  assert (forall l, l ∈ ranked ->
            exists d s, h' !! l = Some d /\
              JobRanker._compute_score profile d = Ok s) as Hscored'.
  { intros l Hl. rewrite Hperm in Hl.
    destruct (Hstored l Hl) as (d & Hd & Hl').
    destruct (Hscored l Hl) as (d0 & s & Hd0 & Hs).
    rewrite Hd in Hd0. injection Hd0 as <-.
    exists (<["rank_score" := VNum (score l)]> d), s.
    by rewrite compute_score_frame. }
  destruct (rank_jobs_ok profile ranked h' Hscored') as (h2 & Hrun & Hstored').
  rewrite Hrun. f_equal.
  - f_equal.
    rewrite (list_fmap_ext _ (fun l => (score l, l)) ranked).
    + rewrite Hranked, (rekey score sorted Hkeys).
      rewrite sorted_desc_id; [done|apply sorted_desc_sorted].
    + intros i l Hl. f_equal. apply Hsame. by eapply list_elem_of_lookup_2.
  - apply map_eq. intros l.
    pose proof (score_all_frame profile ranked h' l) as [Hout _].
    rewrite <- rank_jobs_heap, Hrun in Hout. simpl in Hout.
    destruct (decide (l ∈ ranked)) as [Hl|Hl]; [|by apply Hout].
    destruct (Hstored' l Hl) as (d' & Hd' & Hl2).
    rewrite Hl2, Hd', (Hsame l Hl).
    rewrite Hperm in Hl. destruct (Hstored l Hl) as (d & Hd & Hl').
    rewrite Hd' in Hl'. injection Hl' as ->.
    by rewrite insert_insert_eq.
Qed.

Lemma rank_jobs_idempotent_witness :
  JobRanker.rank_jobs remote_fan [0%nat; 1%nat]
    (snd (JobRanker.rank_jobs remote_fan [0%nat; 1%nat] X_then_Y))
  = (Ok [0%nat; 1%nat],
     snd (JobRanker.rank_jobs remote_fan [0%nat; 1%nat] X_then_Y)).
Proof.
  apply (rank_jobs_idempotent remote_fan [0%nat; 1%nat] [0%nat; 1%nat] X_then_Y).
  vm_compute. reflexivity.
Defined.

(** X19: when [top_n] returns, it returns [min(n, len(jobs))] listings (for
    [n] not negative), they are the first of the ranking, and none of the
    listings left out scores higher than any listing returned. *)
Theorem top_n_best (profile : dict) (jobs top : list loc) (n : nat) (h h' : heap) :
  JobRanker.top_n profile jobs n h = (Ok top, h') ->
  length top = Nat.min n (length jobs) /\
  exists rest,
    JobRanker.rank_jobs profile jobs h = (Ok (top ++ rest), h') /\
    top ++ rest ≡ₚ jobs /\
    forall a b, a ∈ top -> b ∈ rest ->
      (score_of profile h b <= score_of profile h a)%Q.
Proof.
  unfold JobRanker.top_n, mbind, st_bind. intros Hrun.
  destruct (JobRanker.rank_jobs profile jobs h) as [[ranked|e] h1] eqn:Hrank;
    [|done].
  injection Hrun as <- <-.
  pose proof Hrank as (_ & Hranked & _ & _)%rank_jobs_inv.
  set (score := score_of profile h) in *.
  destruct (ranked_once jobs score) as [Hkeys Hperm].
  rewrite <- Hranked in Hperm.
  assert (StronglySorted (fun a b => (score b <= score a)%Q) ranked) as Hsorted.
  { rewrite Hranked. apply ranked_sorted; [done|apply sorted_desc_sorted]. }
  split.
  - by rewrite length_take, <- (Permutation_length Hperm).
  - exists (drop n ranked). rewrite take_drop. split_and!; [done|done|].
    intros a b Ha Hb. rewrite <- (take_drop n ranked) in Hsorted.
    exact (StronglySorted_app_1_elem_of _ _ _ _ _ Hsorted Ha Hb).
Qed.

Lemma top_n_best_witness :
  length [0%nat] = Nat.min 1 (length [0%nat; 1%nat]).
Proof.
  apply (top_n_best remote_fan [0%nat; 1%nat] [0%nat] 1 X_then_Y
           (snd (JobRanker.rank_jobs remote_fan [0%nat; 1%nat] X_then_Y))).
  vm_compute. reflexivity.
Defined.

(** ** More on filtering *)

Section FilterMore.

Import JobFilter.

Variable fromisoformat : string -> option Z.
Variable clock : nat -> Z.
Variable criteria : FilterCriteria.

Lemma py_lower_inv (v : value) (x : string) :
  py_lower v = Ok x -> exists s, v = VStr s /\ x = lower s.
Proof. destruct v; try done. intros [= <-]. by eexists. Qed.

Lemma all_pass_true (checks : list (dict -> result bool)) (job : dict) :
  all_pass checks job = Ok true ->
  Forall (fun check => check job = Ok true) checks.
Proof.
  induction checks as [|check rest IH]; simpl; [constructor|].
  intros H. apply bind_Ok in H as ([] & Hcheck & H); [|done].
  constructor; [done|by apply IH].
Qed.

Lemma all_pass_Forall (checks : list (dict -> result bool)) (job : dict) :
  Forall (fun check => check job = Ok true) checks ->
  all_pass checks job = Ok true.
Proof.
  induction 1 as [|check rest Hcheck _ IH]; simpl; [done|].
  by rewrite Hcheck.
Qed.

(** The loop of [filter_jobs]: what is kept is a subsequence; what is
    kept met the criteria, and what met the criteria is kept. *)
Lemma filter_from_spec (i : nat) (jobs kept : list loc) (h h' : heap) :
  filter_from fromisoformat clock criteria i jobs h = (Ok kept, h') ->
  sublist kept jobs /\
  (forall l, l ∈ kept ->
     exists d now,
       h !! l = Some d /\
       _meets_criteria fromisoformat criteria now d = Ok true) /\
  (forall k l, jobs !! k = Some l ->
     exists d verdict,
       h !! l = Some d /\
       _meets_criteria fromisoformat criteria (clock (i + k)) d = Ok verdict /\
       (verdict = true -> l ∈ kept)).
Proof.
  revert i kept. induction jobs as [|job rest IH]; intros i kept.
  - intros [= <- <-]. split_and!; [done| |done].
    by intros l ?%elem_of_nil.
  - cbn [filter_from]. unfold mbind, st_bind, deref, lift.
    destruct (h !! job) as [d|] eqn:Hd; [|done].
    destruct (_meets_criteria fromisoformat criteria (clock i) d)
      as [keep|] eqn:Hkeep; [|done].
    destruct (filter_from fromisoformat clock criteria (S i) rest h)
      as [[kept'|e] h1] eqn:Hrest; [|done].
    intros [= <- <-]. destruct (IH _ _ Hrest) as (Hsub & Hsound & Hcomplete).
    split_and!.
    + destruct keep; [by apply sublist_skip|by apply sublist_cons].
    + intros l Hl. destruct keep.
      * apply elem_of_cons in Hl as [->|Hl]; [by exists d, (clock i)|by apply Hsound].
      * by apply Hsound.
    + intros [|k] l Hl; simpl in Hl.
      * injection Hl as <-. exists d, keep. rewrite Nat.add_0_r.
        split_and!; [done..|]. intros ->. by left.
      * destruct (Hcomplete k l Hl) as (d' & verdict & Hd' & Hv & Hin).
        exists d', verdict. rewrite Nat.add_succ_r.
        split_and!; [done..|]. intros Hverdict.
        destruct keep; [right|]; by apply Hin.
Qed.

Lemma filter_jobs_kept (jobs kept : list loc) (cs : counters) (h h' : heap) :
  filter_jobs fromisoformat clock criteria jobs h = (Ok (kept, cs), h') ->
  filter_from fromisoformat clock criteria 0 jobs h = (Ok kept, h') /\
  cs = {| total_processed := length jobs; filtered_count := length kept |}.
Proof.
  unfold filter_jobs, mbind, st_bind.
  destruct (filter_from fromisoformat clock criteria 0 jobs h)
    as [[kept'|e] h1]; [|done].
  by intros [= <- <- <-].
Qed.

(** What a kept listing passed: each of the eight checks. *)
Lemma kept_passed (jobs kept : list loc) (cs : counters) (h h' : heap)
    (l : loc) (d : dict) :
  filter_jobs fromisoformat clock criteria jobs h = (Ok (kept, cs), h') ->
  l ∈ kept -> h !! l = Some d ->
  exists now,
    Forall (fun check => check d = Ok true)
      [ _check_required_skills criteria; _check_location criteria;
        _check_salary criteria; _check_experience criteria;
        _check_job_type criteria; _check_company criteria;
        _check_posting_date fromisoformat criteria now;
        _check_keywords criteria ].
Proof.
  intros [Hrun _]%filter_jobs_kept Hl Hd.
  destruct (filter_from_spec _ _ _ _ _ Hrun) as (_ & Hsound & _).
  destruct (Hsound l Hl) as (d' & now & Hd' & Hmeets).
  rewrite Hd in Hd'. injection Hd' as <-.
  exists now. by apply all_pass_true.
Qed.

Lemma check_company_true (d : dict) :
  _check_company criteria d = Ok true ->
  exists s,
    get d "company" (VStr "") = VStr s /\
    (forall blocked, entries (company_blacklist criteria) = Some blocked ->
       contains_any blocked (lower s) = false) /\
    (forall allowed, entries (company_whitelist criteria) = Some allowed ->
       contains_any allowed (lower s) = true).
Proof.
  unfold _check_company. intros H.
  apply bind_Ok in H as (company & (s & Hs & ->)%py_lower_inv & H).
  exists s. split; [done|]. unfold contains_any.
  destruct (entries (company_blacklist criteria)) as [bl|].
  - destruct (existsb _ bl) eqn:Hbl; [done|].
    split; [by intros ? [= <-]|].
    destruct (entries (company_whitelist criteria)); [|done].
    intros ? [= <-]. by injection H.
  - split; [done|].
    destruct (entries (company_whitelist criteria)); [|done].
    intros ? [= <-]. by injection H.
Qed.

Lemma check_location_true (d : dict) :
  _check_location criteria d = Ok true ->
  if remote_only criteria then
    truthy (get d "is_remote" (VBool false)) = true \/
    exists s, get d "location" (VStr "") = VStr s /\
              is_substring "remote" (lower s) = true
  else
    forall locs, entries (locations criteria) = Some locs ->
      exists s, get d "location" (VStr "") = VStr s /\
                contains_any locs (lower s) = true.
Proof.
  unfold _check_location. destruct (remote_only criteria).
  - destruct (truthy (get d "is_remote" (VBool false))); [by left|].
    intros H. apply bind_Ok in H as (loc & (s & Hs & ->)%py_lower_inv & [= H]).
    right. by exists s.
  - destruct (entries (locations criteria)) as [locs|]; [|done].
    intros H locs' [= <-].
    apply bind_Ok in H as (loc & (s & Hs & ->)%py_lower_inv & [= H]).
    by exists s.
Qed.

Lemma cmp_lt_false (s m : Q) :
  cmp_holds OpLt (Qcompare s m) = false -> (m <= s)%Q.
Proof.
  destruct (Qcompare_spec s m) as [Heq|Hlt|Hgt]; simpl; try done; intros _.
  - rewrite Heq. apply Qle_refl.
  - by apply Qlt_le_weak.
Qed.

Lemma cmp_gt_false (s m : Q) :
  cmp_holds OpGt (Qcompare s m) = false -> (s <= m)%Q.
Proof.
  destruct (Qcompare_spec s m) as [Heq|Hlt|Hgt]; simpl; try done; intros _.
  - rewrite Heq. apply Qle_refl.
  - by apply Qlt_le_weak.
Qed.

Lemma in_range_true (s : Q) (lo hi : option Q) :
  in_range (VNum s) lo hi = Ok true ->
  (forall m, lo = Some m -> (m <= s)%Q) /\
  (forall m, hi = Some m -> (s <= m)%Q).
Proof.
  unfold in_range. intros H.
  apply bind_Ok in H as ([] & Hbelow & H); [done|].
  apply bind_Ok in H as ([] & Habove & H); [done|].
  split.
  - intros m ->. simpl in Hbelow. injection Hbelow as Hbelow.
    by apply cmp_lt_false.
  - intros m ->. simpl in Habove. injection Habove as Habove.
    by apply cmp_gt_false.
Qed.

Lemma check_keywords_true (d : dict) :
  _check_keywords criteria d = Ok true ->
  exists title description,
    get d "title" (VStr "") = VStr title /\
    get d "description" (VStr "") = VStr description /\
    (forall wanted, entries (keywords criteria) = Some wanted ->
       contains_any wanted (lower title +:+ " " +:+ lower description) = true) /\
    (forall unwanted, entries (exclude_keywords criteria) = Some unwanted ->
       contains_any unwanted (lower title +:+ " " +:+ lower description) = false).
Proof.
  unfold _check_keywords. intros H.
  apply bind_Ok in H as (x & (description & Hd & ->)%py_lower_inv & H).
  apply bind_Ok in H as (y & (title & Ht & ->)%py_lower_inv & H).
  exists title, description. split_and!; [done|done| |]; unfold contains_any.
  - intros wanted Hw. rewrite Hw in H.
    by destruct (existsb _ wanted).
  - intros unwanted Hu. rewrite Hu in H.
    destruct (entries (keywords criteria)) as [wanted|].
    + destruct (existsb _ wanted); [|done]. simpl in H. injection H as H.
      by apply negb_true_iff in H.
    + simpl in H. injection H as H. by apply negb_true_iff in H.
Qed.

Lemma check_job_type_true (d : dict) :
  _check_job_type criteria d = Ok true ->
  forall types, entries (job_types criteria) = Some types ->
    exists s, get d "job_type" (VStr "") = VStr s /\
              contains_any types (lower s) = true.
Proof.
  unfold _check_job_type. intros H types Ht. rewrite Ht in H.
  apply bind_Ok in H as (x & (s & Hs & ->)%py_lower_inv & [= H]).
  by exists s.
Qed.

Lemma check_required_skills_true (d : dict) :
  _check_required_skills criteria d = Ok true ->
  forall required, entries (required_skills criteria) = Some required ->
    exists description skills,
      get d "description" (VStr "") = VStr description /\
      JobRanker.lowered
        (if truthy (get d "skills" (VList [])) then get d "skills" (VList [])
         else VList []) = Ok skills /\
      forall r, r ∈ required ->
        lower r ∈ skills \/ is_substring (lower r) (lower description) = true.
Proof.
  unfold _check_required_skills. intros H required Hr. rewrite Hr in H.
  apply bind_Ok in H as (x & (description & Hd & ->)%py_lower_inv & H).
  set (job_skills := if truthy (get d "skills" (VList []))
                     then get d "skills" (VList []) else VList []) in *.
  assert (exists r0 rest, required = r0 :: rest) as (r0 & rest & Hreq).
  { destruct (required_skills criteria) as [[|r0 rest]|]; try done.
    injection Hr as <-. by eexists _, _. }
  assert (exists skills, JobRanker.lowered job_skills = Ok skills) as [skills Hskills].
  { rewrite Hreq in H. unfold JobRanker.lowered.
    apply bind_Ok in H as (items & -> & H). simpl.
    apply bind_Ok in H as (skills & -> & _). by exists skills. }
  exists description, skills. split_and!; [done|done|].
  clear Hreq Hr. unfold JobRanker.lowered in Hskills.
  apply bind_Ok in Hskills as (items & Hitems & Hlowered).
  induction required as [|r rest' IH]; [by intros r ?%elem_of_nil|].
  apply bind_Ok in H as (items' & Hitems' & H).
  rewrite Hitems in Hitems'. injection Hitems' as <-.
  apply bind_Ok in H as (skills' & Hskills' & H).
  rewrite Hlowered in Hskills'. injection Hskills' as <-.
  destruct (bool_decide (lower r ∈ skills)) eqn:Hin; simpl in H.
  - intros r' [->|Hr']%elem_of_cons; [|by apply IH].
    left. by apply bool_decide_eq_true in Hin.
  - destruct (is_substring (lower r) (lower description)) eqn:Hsub;
      simpl in H; [|done].
    intros r' [->|Hr']%elem_of_cons; [by right|by apply IH].
Qed.

End FilterMore.



(** X21: a listing that [JobFilter.filter_jobs] keeps has a text as its
    company (or none, read as the empty text); that text contains no entry
    of the blacklist and, when a whitelist is set, contains an entry of
    it, case ignored. *)
Theorem kept_company_allowed fromisoformat clock
    (criteria : JobFilter.FilterCriteria) (jobs kept : list loc)
    (cs : JobFilter.counters) (h h' : heap) (l : loc) (d : dict) :
  JobFilter.filter_jobs fromisoformat clock criteria jobs h = (Ok (kept, cs), h') ->
  l ∈ kept -> h !! l = Some d ->
  exists s,
    get d "company" (VStr "") = VStr s /\
    (forall blocked,
       JobFilter.entries (JobFilter.company_blacklist criteria) = Some blocked ->
       contains_any blocked (lower s) = false) /\
    (forall allowed,
       JobFilter.entries (JobFilter.company_whitelist criteria) = Some allowed ->
       contains_any allowed (lower s) = true).
Proof.
  intros Hrun Hl Hd.
  destruct (kept_passed _ _ _ _ _ _ _ _ _ _ Hrun Hl Hd) as [now Hall].
  rewrite !Forall_cons in Hall.
  destruct Hall as (_ & _ & _ & _ & _ & Hcompany & _).
  by apply check_company_true.
Qed.

(** X22: with [remote_only] set, a kept listing is flagged remote or its
    location text contains "remote", whatever the [locations] criterion
    says; without [remote_only] and with locations set, the location text
    of a kept listing contains one of them, case ignored. *)
Theorem kept_location_matches fromisoformat clock
    (criteria : JobFilter.FilterCriteria) (jobs kept : list loc)
    (cs : JobFilter.counters) (h h' : heap) (l : loc) (d : dict) :
  JobFilter.filter_jobs fromisoformat clock criteria jobs h = (Ok (kept, cs), h') ->
  l ∈ kept -> h !! l = Some d ->
  if JobFilter.remote_only criteria then
    truthy (get d "is_remote" (VBool false)) = true \/
    exists s, get d "location" (VStr "") = VStr s /\
              is_substring "remote" (lower s) = true
  else
    forall locs,
      JobFilter.entries (JobFilter.locations criteria) = Some locs ->
      exists s, get d "location" (VStr "") = VStr s /\
                contains_any locs (lower s) = true.
Proof.
  intros Hrun Hl Hd.
  destruct (kept_passed _ _ _ _ _ _ _ _ _ _ Hrun Hl Hd) as [now Hall].
  rewrite !Forall_cons in Hall.
  destruct Hall as (_ & Hlocation & _).
  by apply check_location_true.
Qed.

(** X23: a kept listing whose salary is a number lies within the salary
    bounds that are set and not zero; likewise for its experience_years
    and the experience bounds. *)
Theorem kept_within_bounds fromisoformat clock
    (criteria : JobFilter.FilterCriteria) (jobs kept : list loc)
    (cs : JobFilter.counters) (h h' : heap) (l : loc) (d : dict) :
  JobFilter.filter_jobs fromisoformat clock criteria jobs h = (Ok (kept, cs), h') ->
  l ∈ kept -> h !! l = Some d ->
  (forall s, get d "salary" VNone = VNum s ->
     (forall m, JobFilter.bound (JobFilter.min_salary criteria) = Some m -> (m <= s)%Q) /\
     (forall m, JobFilter.bound (JobFilter.max_salary criteria) = Some m -> (s <= m)%Q)) /\
  (forall e, get d "experience_years" VNone = VNum e ->
     (forall m, JobFilter.zbound (JobFilter.experience_min criteria) = Some m ->
        (inject_Z m <= e)%Q) /\
     (forall m, JobFilter.zbound (JobFilter.experience_max criteria) = Some m ->
        (e <= inject_Z m)%Q)).
Proof.
  intros Hrun Hl Hd.
  destruct (kept_passed _ _ _ _ _ _ _ _ _ _ Hrun Hl Hd) as [now Hall].
  rewrite !Forall_cons in Hall.
  destruct Hall as (_ & _ & Hsalary & Hexperience & _).
  split.
  - intros s Hs. unfold JobFilter._check_salary in Hsalary. rewrite Hs in Hsalary.
    by apply in_range_true.
  - intros e He. unfold JobFilter._check_experience in Hexperience.
    rewrite He in Hexperience.
    apply in_range_true in Hexperience as [Hlo Hhi]. split.
    + intros m Hm. apply Hlo. by rewrite Hm.
    + intros m Hm. apply Hhi. by rewrite Hm.
Qed.

(** X24: the title and the description of a kept listing are texts;
    joined by a space and lowercased they contain one of the keywords when
    keywords are set, and none of the excluded keywords. *)
Theorem kept_keywords_match fromisoformat clock
    (criteria : JobFilter.FilterCriteria) (jobs kept : list loc)
    (cs : JobFilter.counters) (h h' : heap) (l : loc) (d : dict) :
  JobFilter.filter_jobs fromisoformat clock criteria jobs h = (Ok (kept, cs), h') ->
  l ∈ kept -> h !! l = Some d ->
  exists title description,
    get d "title" (VStr "") = VStr title /\
    get d "description" (VStr "") = VStr description /\
    (forall wanted,
       JobFilter.entries (JobFilter.keywords criteria) = Some wanted ->
       contains_any wanted (lower title +:+ " " +:+ lower description) = true) /\
    (forall unwanted,
       JobFilter.entries (JobFilter.exclude_keywords criteria) = Some unwanted ->
       contains_any unwanted (lower title +:+ " " +:+ lower description) = false).
Proof.
  intros Hrun Hl Hd.
  destruct (kept_passed _ _ _ _ _ _ _ _ _ _ Hrun Hl Hd) as [now Hall].
  rewrite !Forall_cons in Hall.
  destruct Hall as (_ & _ & _ & _ & _ & _ & _ & Hkeywords & _).
  by apply check_keywords_true.
Qed.

(** X25: when required skills are set, every one of them is, lowercased,
    among the lowercased skills of a kept listing or inside its lowercased
    description. *)
Theorem kept_has_required_skills fromisoformat clock
    (criteria : JobFilter.FilterCriteria) (jobs kept : list loc)
    (cs : JobFilter.counters) (h h' : heap) (l : loc) (d : dict)
    (required : list string) :
  JobFilter.filter_jobs fromisoformat clock criteria jobs h = (Ok (kept, cs), h') ->
  l ∈ kept -> h !! l = Some d ->
  JobFilter.entries (JobFilter.required_skills criteria) = Some required ->
  exists description skills,
    get d "description" (VStr "") = VStr description /\
    JobRanker.lowered
      (if truthy (get d "skills" (VList [])) then get d "skills" (VList [])
       else VList []) = Ok skills /\
    forall r, r ∈ required ->
      lower r ∈ skills \/ is_substring (lower r) (lower description) = true.
Proof.
  intros Hrun Hl Hd Hrequired.
  destruct (kept_passed _ _ _ _ _ _ _ _ _ _ Hrun Hl Hd) as [now Hall].
  rewrite !Forall_cons in Hall.
  destruct Hall as (Hskills & _).
  by apply (check_required_skills_true criteria).
Qed.

(** X26: under criteria made by [create_default_criteria] without a
    [job_types] argument, the job type of a kept listing is a text that
    contains "full-time", case ignored; a listing without a job type is
    not kept. *)
Theorem default_criteria_keep_full_time fromisoformat clock
    (kw : JobFilter.kwargs) (jobs kept : list loc)
    (cs : JobFilter.counters) (h h' : heap) (l : loc) (d : dict) :
  JobFilter.kw_job_types kw = None ->
  JobFilter.filter_jobs fromisoformat clock (JobFilter.create_default_criteria kw)
    jobs h = (Ok (kept, cs), h') ->
  l ∈ kept -> h !! l = Some d ->
  exists s,
    d !! "job_type" = Some (VStr s) /\
    is_substring "full-time" (lower s) = true.
Proof.
  intros Hkw Hrun Hl Hd.
  destruct (kept_passed _ _ _ _ _ _ _ _ _ _ Hrun Hl Hd) as [now Hall].
  rewrite !Forall_cons in Hall.
  destruct Hall as (_ & _ & _ & _ & Htype & _).
  destruct (check_job_type_true _ _ Htype ["full-time"]) as (s & Hs & Hin).
  { unfold JobFilter.create_default_criteria. simpl. by rewrite Hkw. }
  unfold contains_any in Hin. simpl in Hin. rewrite orb_false_r in Hin.
  exists s. split; [|done].
  unfold get in Hs. destruct (d !! "job_type") as [v|]; [by rewrite Hs|].
  injection Hs as <-. discriminate.
Qed.

Lemma picky_run :
  JobFilter.filter_jobs (fun _ => None) (fun _ => 0) picky [0%nat; 1%nat]
    two_listings
  = (Ok ([0%nat],
         {| JobFilter.total_processed := 2; JobFilter.filtered_count := 1 |}),
     two_listings).
Proof. vm_compute. reflexivity. Qed.

Lemma kept_company_allowed_witness :
  exists s,
    get full_time_job "company" (VStr "") = VStr s /\
    (forall blocked,
       JobFilter.entries (JobFilter.company_blacklist picky) = Some blocked ->
       contains_any blocked (lower s) = false) /\
    (forall allowed,
       JobFilter.entries (JobFilter.company_whitelist picky) = Some allowed ->
       contains_any allowed (lower s) = true).
Proof.
  apply (kept_company_allowed _ _ _ _ _ _ _ _ 0%nat full_time_job picky_run);
    [by left | reflexivity].
Defined.

Lemma kept_location_matches_witness :
  truthy (get full_time_job "is_remote" (VBool false)) = true \/
  exists s, get full_time_job "location" (VStr "") = VStr s /\
            is_substring "remote" (lower s) = true.
Proof.
  apply (kept_location_matches _ _ _ _ _ _ _ _ 0%nat full_time_job picky_run);
    [by left | reflexivity].
Defined.

Lemma kept_within_bounds_witness : (100000 <= 120000)%Q /\ (120000 <= 150000)%Q.
Proof.
  destruct (kept_within_bounds _ _ _ _ _ _ _ _ 0%nat full_time_job picky_run)
    as [Hsalary _]; [by left | reflexivity |].
  destruct (Hsalary 120000%Q eq_refl) as [Hmin Hmax].
  split; [by apply Hmin | by apply Hmax].
Defined.

Lemma kept_keywords_match_witness :
  exists title description,
    get full_time_job "title" (VStr "") = VStr title /\
    get full_time_job "description" (VStr "") = VStr description /\
    (forall wanted,
       JobFilter.entries (JobFilter.keywords picky) = Some wanted ->
       contains_any wanted (lower title +:+ " " +:+ lower description) = true) /\
    (forall unwanted,
       JobFilter.entries (JobFilter.exclude_keywords picky) = Some unwanted ->
       contains_any unwanted (lower title +:+ " " +:+ lower description) = false).
Proof.
  apply (kept_keywords_match _ _ _ _ _ _ _ _ 0%nat full_time_job picky_run);
    [by left | reflexivity].
Defined.

Lemma kept_has_required_skills_witness :
  exists description skills,
    get full_time_job "description" (VStr "") = VStr description /\
    JobRanker.lowered
      (if truthy (get full_time_job "skills" (VList []))
       then get full_time_job "skills" (VList []) else VList []) = Ok skills /\
    forall r, r ∈ ["Python"] ->
      lower r ∈ skills \/ is_substring (lower r) (lower description) = true.
Proof.
  apply (kept_has_required_skills _ _ _ _ _ _ _ _ 0%nat full_time_job ["Python"]
           picky_run); [by left | reflexivity | reflexivity].
Defined.

Lemma default_criteria_keep_full_time_witness :
  exists s,
    full_time_job !! "job_type" = Some (VStr s) /\
    is_substring "full-time" (lower s) = true.
Proof.
  apply (default_criteria_keep_full_time (fun _ => None) (fun _ => 0)
           JobFilter.no_kwargs [0%nat; 1%nat] [0%nat]
           {| JobFilter.total_processed := 2; JobFilter.filtered_count := 1 |}
           two_listings two_listings 0%nat full_time_job).
  - reflexivity.
  - vm_compute. reflexivity.
  - by left.
  - reflexivity.
Defined.

Section NoCriteria.

Import JobFilter.

Variable fromisoformat : string -> option Z.
Variable clock : nat -> Z.

Lemma in_range_unbounded (field : value) : in_range field None None = Ok true.
Proof. by destruct field. Qed.

Lemma no_criteria_meets (now : Z) (d : dict) :
  has_text d "company" -> has_text d "title" -> has_text d "description" ->
  _meets_criteria fromisoformat no_criteria now d = Ok true.
Proof.
  intros [company Hc] [title Ht] [description Hd].
  apply all_pass_Forall. repeat constructor.
  - unfold _check_salary. simpl. apply in_range_unbounded.
  - unfold _check_experience. simpl. apply in_range_unbounded.
  - unfold _check_company. by rewrite Hc.
  - unfold _check_keywords. by rewrite Hd, Ht.
Qed.

Lemma no_criteria_company_error (now : Z) (d : dict) (v : value) :
  d !! "company" = Some v -> (forall s, v <> VStr s) ->
  _meets_criteria fromisoformat no_criteria now d = Raise AttributeError.
Proof.
  intros Hv Hnot. unfold _meets_criteria. cbn [all_pass].
  change (_check_required_skills no_criteria d) with (Ok true).
  change (_check_location no_criteria d) with (Ok true).
  change (_check_job_type no_criteria d) with (Ok true).
  unfold _check_salary, _check_experience. simpl.
  rewrite !in_range_unbounded. simpl.
  unfold _check_company, get. rewrite Hv.
  destruct v; simpl; try done. by destruct (Hnot s).
Qed.

Lemma filter_from_all (criteria : FilterCriteria) (i : nat) (jobs : list loc)
    (h : heap) :
  (forall l, l ∈ jobs ->
     exists d, h !! l = Some d /\
       forall now, _meets_criteria fromisoformat criteria now d = Ok true) ->
  filter_from fromisoformat clock criteria i jobs h = (Ok jobs, h).
Proof.
  revert i. induction jobs as [|job rest IH]; intros i Hall; [done|].
  cbn [filter_from]. unfold mbind, st_bind, deref, lift.
  destruct (Hall job) as (d & Hd & Hmeets); [by left|].
  rewrite Hd, Hmeets, IH; [done|].
  intros l Hl. apply Hall. by right.
Qed.

End NoCriteria.

(** X27: with no criterion set ([FilterCriteria()]), [filter_jobs] keeps
    every listing, provided the company, the title and the description of
    each are texts or missing; a listing that holds something else as its
    company ([None], a number) makes the filter raise [AttributeError],
    although nothing is filtered on. *)
Theorem no_criteria_keep_all fromisoformat clock (jobs : list loc) (h : heap) :
  ((forall l, l ∈ jobs ->
      exists d, h !! l = Some d /\
        has_text d "company" /\ has_text d "title" /\ has_text d "description") ->
   JobFilter.filter_jobs fromisoformat clock JobFilter.no_criteria jobs h
   = (Ok (jobs, {| JobFilter.total_processed := length jobs;
                   JobFilter.filtered_count := length jobs |}), h)) /\
  (forall l d v,
     h !! l = Some d -> d !! "company" = Some v -> (forall s, v <> VStr s) ->
     JobFilter.filter_jobs fromisoformat clock JobFilter.no_criteria [l] h
     = (Raise AttributeError, h)).
Proof.
  split.
  - intros Hall. unfold JobFilter.filter_jobs, mbind, st_bind.
    rewrite filter_from_all; [done|].
    intros l Hl. destruct (Hall l Hl) as (d & Hd & Hc & Ht & Hdesc).
    exists d. split; [done|]. intros now. by apply no_criteria_meets.
  - intros l d v Hd Hv Hnot.
    unfold JobFilter.filter_jobs, mbind, st_bind. cbn [JobFilter.filter_from].
    unfold mbind, st_bind, deref, lift. rewrite Hd.
    by rewrite (no_criteria_company_error fromisoformat _ d v Hv Hnot).
Qed.

Lemma no_criteria_keep_all_witness :
  JobFilter.filter_jobs (fun _ => None) (fun _ => 0) JobFilter.no_criteria
    [0%nat; 1%nat] two_listings
  = (Ok ([0%nat; 1%nat],
         {| JobFilter.total_processed := 2; JobFilter.filtered_count := 2 |}),
     two_listings).
Proof.
  apply (no_criteria_keep_all (fun _ => None) (fun _ => 0) [0%nat; 1%nat]
           two_listings).
  intros l Hl.
  apply elem_of_cons in Hl as [->|Hl];
    [exists full_time_job; split_and!; [reflexivity|by eexists..]|].
  apply elem_of_cons in Hl as [->|Hl];
    [exists paid_job; split_and!; [reflexivity|by eexists..]|].
  by apply elem_of_nil in Hl.
Defined.

(** ** More on deduplication *)

Lemma dedupe_from_cover (seen : list (hkey * hkey * hkey))
    (todo out : list dict) :
  dedupe_from seen todo = Ok out ->
  forall job, job ∈ todo ->
    exists key,
      job_key job = Ok key /\
      (key ∈ seen \/ exists kept, kept ∈ out /\ job_key kept = Ok key).
Proof.
  revert seen out. induction todo as [|j rest IH]; intros seen out; simpl.
  - by intros _ job ?%elem_of_nil.
  - intros H. apply bind_Ok in H as (key & Hkey & H).
    case_bool_decide as Hseen.
    + intros job [->|Hin]%elem_of_cons; [by exists key; split; [|left]|].
      by apply (IH _ _ H).
    + apply bind_Ok in H as (out' & Hout' & [= <-]).
      intros job [->|Hin]%elem_of_cons.
      * exists key. split; [done|]. right. exists j. split; [by left|done].
      * destruct (IH _ _ Hout' job Hin) as (k & Hk & [Hs|(kept & Hkept & Hkk)]).
        -- exists k. split; [done|].
           apply elem_of_cons in Hs as [->|Hs]; [|by left].
           right. exists j. split; [by left|done].
        -- exists k. split; [done|]. right. exists kept. split; [by right|done].
Qed.

(** X28: deduplication loses no job: when [deduplicate_jobs] returns,
    every listing it held has a survivor with the same stored key
    (title, company, location), and the result is no longer than the
    input. *)
Theorem deduplicate_jobs_covers (self self' : fetcher) (out : list dict) :
  deduplicate_jobs self = Ok (out, self') ->
  (length out <= length (jobs self))%nat /\
  forall job, job ∈ jobs self ->
    exists kept, kept ∈ out /\ job_key kept = job_key job.
Proof.
  unfold deduplicate_jobs. intros H.
  apply bind_Ok in H as (out' & Hout & [= <- _]). split.
  - by eapply sublist_length, dedupe_from_sublist.
  - intros job Hjob.
    destruct (dedupe_from_cover _ _ _ Hout job Hjob)
      as (key & Hkey & [Hseen|(kept & Hkept & Hk)]).
    + by apply elem_of_nil in Hseen.
    + exists kept. split; [done|congruence].
Qed.

Lemma deduplicate_jobs_covers_witness :
  (length [listing "ML Engineer" "Tech Corp" "Remote";
           listing "Data Scientist" "Tech Corp" "Remote"]
   <= length (jobs (holding repeated_listings)))%nat.
Proof.
  apply (deduplicate_jobs_covers (holding repeated_listings)
           (holding [listing "ML Engineer" "Tech Corp" "Remote";
                     listing "Data Scientist" "Tech Corp" "Remote"])).
  vm_compute. reflexivity.
Defined.

(** X29: a decoded body that is an object without the keys "elements",
    "results" and "response" yields the empty list of raw records for
    every source name; a body that is not an object makes the extraction
    raise [AttributeError] for the three known sources, and yields the
    empty list for any other source name. *)
Theorem extract_missing_keys (source : string) (data : json) :
  match data with
  | JObject m =>
      assoc "elements" m = None -> assoc "results" m = None ->
      assoc "response" m = None ->
      _extract_jobs_from_response data source = Ok (JRecords [])
  | _ =>
      _extract_jobs_from_response data source
      = if known_source source then Raise AttributeError else Ok (JRecords [])
  end.
Proof.
  unfold _extract_jobs_from_response, known_source.
  destruct data as [records|m|].
  - by destruct (String.eqb source "linkedin"), (String.eqb source "indeed"),
      (String.eqb source "glassdoor").
  - intros He Hr Hp. simpl. rewrite He, Hr, Hp. simpl.
    by destruct (String.eqb source "linkedin"), (String.eqb source "indeed"),
      (String.eqb source "glassdoor").
  - by destruct (String.eqb source "linkedin"), (String.eqb source "indeed"),
      (String.eqb source "glassdoor").
Qed.

Lemma extract_missing_keys_witness :
  _extract_jobs_from_response (JObject [("count", JOther)]) "glassdoor"
  = Ok (JRecords []).
Proof.
  apply (extract_missing_keys "glassdoor" (JObject [("count", JOther)]));
    reflexivity.
Defined.



